(** * LiveSession: the live session engine of the voice assistant

    A shallow embedding of the [LiveSession] React component
    (playback scheduler, interruption handler, tool dispatcher,
    session start and teardown) together with the properties its
    specification states about it.

    Conventions.
    - Times on the output audio clock ([outputCtx.currentTime],
      [nextStartTimeRef.current], [AudioBuffer.duration]) are counted in
      sample frames of the 24 kHz output context and modelled as [Z].
      The properties below only use the order, [max] and the monotonicity
      of [+], which the program's doubles share.
    - React state ([useState]) and refs ([useRef]) are fields of one
      [State] record; a setter call is an update of that record.
    - Everything the component does to the outside world (audio nodes
      started and stopped, devices held, log lines, tool responses sent,
      timeouts armed) is recorded in the [Platform] part of the state.
    - A handler is a computation in the monad [M]: it threads the state
      and may throw; what was written before a throw stays written, as in
      JavaScript. *)

From Stdlib Require Import ZArith QArith Qround String List Lia Lqa.
From stdpp Require Import base decidable option list gmap strings.

Local Open Scope string_scope.
Local Open Scope Z_scope.
Local Open Scope list_scope.

(** ** JavaScript values *)

(** Values carried by tool-call arguments and tool responses.  An object
    is a finite map from property names to values. *)
#[warnings="-register-all"] Inductive value : Type :=
  | JUndefined
  | JNull
  | JNaN
  | JBool (b : bool)
  | JNum (q : Q)
  | JStr (s : string)
  | JArr (l : list value)
  | JObj (m : gmap string value).

Inductive exn : Type :=
  | TypeError
  | InvalidStateError
  | Rejected.

Inductive Result (A : Type) : Type :=
  | Ok (a : A)
  | Throw (e : exn).
Arguments Ok {A} a.
Arguments Throw {A} e.

(** [ToBoolean]: the test made by [||] and [if]. *)
Definition truthy (v : value) : bool :=
  match v with
  | JUndefined | JNull | JNaN => false
  | JBool b => b
  | JNum q => negb (Qeq_bool q 0)
  | JStr s => negb (bool_decide (s = ""))
  | JArr _ | JObj _ => true
  end.

(** [a || b] *)
Definition js_or (a b : value) : value := if truthy a then a else b.

(** [v === 'lit'] for a string literal. *)
Definition str_is (v : value) (lit : string) : bool :=
  match v with
  | JStr s => bool_decide (s = lit)
  | _ => false
  end.

(** [o[k]] on an object that is known to exist. *)
Definition field (o : gmap string value) (k : string) : value :=
  default JUndefined (o !! k).

(** [v.k]: reading a property of [undefined] or [null] throws; the keys
    read by the component (location, temp, condition, symbol, price,
    title, content) are not defined on the prototypes of numbers,
    booleans, strings or arrays, so there the read gives [undefined]. *)
Definition get_prop (v : value) (k : string) : Result value :=
  match v with
  | JUndefined | JNull => Throw TypeError
  | JObj m => Ok (field m k)
  | _ => Ok JUndefined
  end.

(** ** Audio data *)

Definition time : Type := Z.

(** A decoded [AudioBuffer]; its duration in frames is its length. *)
Record AudioBuffer : Type := { buf_length : N }.

Definition duration (b : AudioBuffer) : Z := Z.of_N (buf_length b).

(** An [AudioBufferSourceNode]. [stop()] throws on a node on which
    [start()] was never called. *)
Record SourceNode : Type := {
  src_id : nat;
  src_buffer : AudioBuffer;
  src_started : bool
}.

(** Calls made on source nodes, in order. *)
Inductive AudioEvent : Type :=
  | AStart (id : nat) (when : time) (dur : Z)
  | AStop (id : nat).

(** ** Component data *)

Inductive AppMode : Type := LIVE | CHAT | TERMINAL.

Inductive LogType : Type := info | tool | error | thought.

(** A diagnostic log entry handed to [onLog]; the wall-clock stamp that
    [addLog] prepends is left out. *)
Record LogEntry : Type := { log_message : string; log_type : LogType }.

Inductive TaskStatus : Type :=
  | idle | opening | searching | processing | payment | completed.

Record TaskState : Type := {
  task_isActive : bool;
  appName : option value;
  actionDescription : option string;
  task_status : TaskStatus;
  details : option value
}.

Definition idle_task : TaskState :=
  {| task_isActive := false; appName := None; actionDescription := None;
     task_status := idle; details := None |}.

Inductive WidgetData : Type :=
  | weather (location temp condition : value)
  | stock (symbol price : value) (history : list value)
  | map_widget (location : value) (lat lng : Q)
  | note (title content : value).

Record FunctionCall : Type := {
  fc_id : string;
  fc_name : string;
  fc_args : option (gmap string value)
}.

(** The argument of [session.sendToolResponse]. *)
Record FunctionResponse : Type := {
  fr_id : string;
  fr_name : string;
  fr_response : value
}.

(** A [LiveServerMessage], reduced to the parts [onmessage] reads:
    [serverContent?.interrupted], [toolCall] with its optional
    [functionCalls], and
    [serverContent?.modelTurn?.parts?.[0]?.inlineData?.data]. *)
Record LiveServerMessage : Type := {
  interrupted : bool;
  toolCall : option (option (list FunctionCall));
  inlineData : option string
}.

(** State updates armed with [setTimeout]. *)
Inductive TimerAction : Type :=
  | MarkCompleted
  | MarkPayment
  | ResetTask.

(** What the browser holds for the component until it is released. *)
Inductive Resource : Type :=
  | Tracks (stream : nat)
  | AudioNode (id : nat)
  | Context (id : nat)
  | Interval (id : positive)
  | Channel (id : nat).

#[global] Instance Resource_eq_dec : EqDecision Resource.
Proof. solve_decision. Defined.

(** ** State *)

Record Ui : Type := {
  isActive : bool;
  isCameraActive : bool;
  status : string;
  volume : Q;
  task : TaskState;
  activeWidget : option WidgetData
}.

Record Refs : Type := {
  inputContextRef : option nat;
  outputContextRef : option nat;
  sessionPromiseRef : option nat;
  scriptProcessorRef : option nat;
  sourceNodeRef : option nat;
  audioStreamRef : option nat;
  nextStartTimeRef : time;
  sourcesRef : list SourceNode;
  videoStreamRef : option nat;
  frameIntervalRef : option positive
}.

Record Platform : Type := {
  acquired : list Resource;
  audio_log : list AudioEvent;
  logs : list LogEntry;
  console : list string;
  sent : list FunctionResponse;
  timeouts : list (Z * TimerAction);
  tab_changes : list AppMode;
  reminders : list (value * value);
  random_calls : nat;
  next_id : nat
}.

Record State : Type := { ui : Ui; refs : Refs; env : Platform }.

Definition initial_state : State :=
  {| ui := {| isActive := false; isCameraActive := false;
              status := "SYSTEM STANDBY"; volume := 0%Q;
              task := idle_task; activeWidget := None |};
     refs := {| inputContextRef := None; outputContextRef := None;
                sessionPromiseRef := None; scriptProcessorRef := None;
                sourceNodeRef := None; audioStreamRef := None;
                nextStartTimeRef := 0; sourcesRef := [];
                videoStreamRef := None; frameIntervalRef := None |};
     env := {| acquired := []; audio_log := []; logs := []; console := [];
               sent := []; timeouts := []; tab_changes := [];
               reminders := []; random_calls := 0; next_id := 0 |} |}.

(** *** Field updates *)

Definition upd_ui (f : Ui -> Ui) (s : State) : State :=
  {| ui := f (ui s); refs := refs s; env := env s |}.
Definition upd_refs (f : Refs -> Refs) (s : State) : State :=
  {| ui := ui s; refs := f (refs s); env := env s |}.
Definition upd_env (f : Platform -> Platform) (s : State) : State :=
  {| ui := ui s; refs := refs s; env := f (env s) |}.

Definition with_isActive (v : bool) (u : Ui) : Ui :=
  {| isActive := v; isCameraActive := isCameraActive u; status := status u;
     volume := volume u; task := task u; activeWidget := activeWidget u |}.
Definition with_isCameraActive (v : bool) (u : Ui) : Ui :=
  {| isActive := isActive u; isCameraActive := v; status := status u;
     volume := volume u; task := task u; activeWidget := activeWidget u |}.
Definition with_status (v : string) (u : Ui) : Ui :=
  {| isActive := isActive u; isCameraActive := isCameraActive u; status := v;
     volume := volume u; task := task u; activeWidget := activeWidget u |}.
Definition with_volume (v : Q) (u : Ui) : Ui :=
  {| isActive := isActive u; isCameraActive := isCameraActive u;
     status := status u; volume := v; task := task u;
     activeWidget := activeWidget u |}.
Definition with_task (f : TaskState -> TaskState) (u : Ui) : Ui :=
  {| isActive := isActive u; isCameraActive := isCameraActive u;
     status := status u; volume := volume u; task := f (task u);
     activeWidget := activeWidget u |}.
Definition with_activeWidget (v : option WidgetData) (u : Ui) : Ui :=
  {| isActive := isActive u; isCameraActive := isCameraActive u;
     status := status u; volume := volume u; task := task u;
     activeWidget := v |}.

Definition with_inputContextRef (v : option nat) (r : Refs) : Refs :=
  {| inputContextRef := v; outputContextRef := outputContextRef r;
     sessionPromiseRef := sessionPromiseRef r;
     scriptProcessorRef := scriptProcessorRef r;
     sourceNodeRef := sourceNodeRef r; audioStreamRef := audioStreamRef r;
     nextStartTimeRef := nextStartTimeRef r; sourcesRef := sourcesRef r;
     videoStreamRef := videoStreamRef r;
     frameIntervalRef := frameIntervalRef r |}.
Definition with_outputContextRef (v : option nat) (r : Refs) : Refs :=
  {| inputContextRef := inputContextRef r; outputContextRef := v;
     sessionPromiseRef := sessionPromiseRef r;
     scriptProcessorRef := scriptProcessorRef r;
     sourceNodeRef := sourceNodeRef r; audioStreamRef := audioStreamRef r;
     nextStartTimeRef := nextStartTimeRef r; sourcesRef := sourcesRef r;
     videoStreamRef := videoStreamRef r;
     frameIntervalRef := frameIntervalRef r |}.
Definition with_sessionPromiseRef (v : option nat) (r : Refs) : Refs :=
  {| inputContextRef := inputContextRef r;
     outputContextRef := outputContextRef r; sessionPromiseRef := v;
     scriptProcessorRef := scriptProcessorRef r;
     sourceNodeRef := sourceNodeRef r; audioStreamRef := audioStreamRef r;
     nextStartTimeRef := nextStartTimeRef r; sourcesRef := sourcesRef r;
     videoStreamRef := videoStreamRef r;
     frameIntervalRef := frameIntervalRef r |}.
Definition with_scriptProcessorRef (v : option nat) (r : Refs) : Refs :=
  {| inputContextRef := inputContextRef r;
     outputContextRef := outputContextRef r;
     sessionPromiseRef := sessionPromiseRef r; scriptProcessorRef := v;
     sourceNodeRef := sourceNodeRef r; audioStreamRef := audioStreamRef r;
     nextStartTimeRef := nextStartTimeRef r; sourcesRef := sourcesRef r;
     videoStreamRef := videoStreamRef r;
     frameIntervalRef := frameIntervalRef r |}.
Definition with_sourceNodeRef (v : option nat) (r : Refs) : Refs :=
  {| inputContextRef := inputContextRef r;
     outputContextRef := outputContextRef r;
     sessionPromiseRef := sessionPromiseRef r;
     scriptProcessorRef := scriptProcessorRef r; sourceNodeRef := v;
     audioStreamRef := audioStreamRef r;
     nextStartTimeRef := nextStartTimeRef r; sourcesRef := sourcesRef r;
     videoStreamRef := videoStreamRef r;
     frameIntervalRef := frameIntervalRef r |}.
Definition with_audioStreamRef (v : option nat) (r : Refs) : Refs :=
  {| inputContextRef := inputContextRef r;
     outputContextRef := outputContextRef r;
     sessionPromiseRef := sessionPromiseRef r;
     scriptProcessorRef := scriptProcessorRef r;
     sourceNodeRef := sourceNodeRef r; audioStreamRef := v;
     nextStartTimeRef := nextStartTimeRef r; sourcesRef := sourcesRef r;
     videoStreamRef := videoStreamRef r;
     frameIntervalRef := frameIntervalRef r |}.
Definition with_nextStartTimeRef (v : time) (r : Refs) : Refs :=
  {| inputContextRef := inputContextRef r;
     outputContextRef := outputContextRef r;
     sessionPromiseRef := sessionPromiseRef r;
     scriptProcessorRef := scriptProcessorRef r;
     sourceNodeRef := sourceNodeRef r; audioStreamRef := audioStreamRef r;
     nextStartTimeRef := v; sourcesRef := sourcesRef r;
     videoStreamRef := videoStreamRef r;
     frameIntervalRef := frameIntervalRef r |}.
Definition with_sourcesRef (v : list SourceNode) (r : Refs) : Refs :=
  {| inputContextRef := inputContextRef r;
     outputContextRef := outputContextRef r;
     sessionPromiseRef := sessionPromiseRef r;
     scriptProcessorRef := scriptProcessorRef r;
     sourceNodeRef := sourceNodeRef r; audioStreamRef := audioStreamRef r;
     nextStartTimeRef := nextStartTimeRef r; sourcesRef := v;
     videoStreamRef := videoStreamRef r;
     frameIntervalRef := frameIntervalRef r |}.
Definition with_videoStreamRef (v : option nat) (r : Refs) : Refs :=
  {| inputContextRef := inputContextRef r;
     outputContextRef := outputContextRef r;
     sessionPromiseRef := sessionPromiseRef r;
     scriptProcessorRef := scriptProcessorRef r;
     sourceNodeRef := sourceNodeRef r; audioStreamRef := audioStreamRef r;
     nextStartTimeRef := nextStartTimeRef r; sourcesRef := sourcesRef r;
     videoStreamRef := v; frameIntervalRef := frameIntervalRef r |}.
Definition with_frameIntervalRef (v : option positive) (r : Refs) : Refs :=
  {| inputContextRef := inputContextRef r;
     outputContextRef := outputContextRef r;
     sessionPromiseRef := sessionPromiseRef r;
     scriptProcessorRef := scriptProcessorRef r;
     sourceNodeRef := sourceNodeRef r; audioStreamRef := audioStreamRef r;
     nextStartTimeRef := nextStartTimeRef r; sourcesRef := sourcesRef r;
     videoStreamRef := videoStreamRef r; frameIntervalRef := v |}.

Definition with_acquired (f : list Resource -> list Resource)
    (p : Platform) : Platform :=
  {| acquired := f (acquired p); audio_log := audio_log p; logs := logs p;
     console := console p; sent := sent p; timeouts := timeouts p;
     tab_changes := tab_changes p; reminders := reminders p;
     random_calls := random_calls p; next_id := next_id p |}.
Definition with_audio_log (f : list AudioEvent -> list AudioEvent)
    (p : Platform) : Platform :=
  {| acquired := acquired p; audio_log := f (audio_log p); logs := logs p;
     console := console p; sent := sent p; timeouts := timeouts p;
     tab_changes := tab_changes p; reminders := reminders p;
     random_calls := random_calls p; next_id := next_id p |}.
Definition with_logs (f : list LogEntry -> list LogEntry)
    (p : Platform) : Platform :=
  {| acquired := acquired p; audio_log := audio_log p; logs := f (logs p);
     console := console p; sent := sent p; timeouts := timeouts p;
     tab_changes := tab_changes p; reminders := reminders p;
     random_calls := random_calls p; next_id := next_id p |}.
Definition with_console (f : list string -> list string)
    (p : Platform) : Platform :=
  {| acquired := acquired p; audio_log := audio_log p; logs := logs p;
     console := f (console p); sent := sent p; timeouts := timeouts p;
     tab_changes := tab_changes p; reminders := reminders p;
     random_calls := random_calls p; next_id := next_id p |}.
Definition with_sent (f : list FunctionResponse -> list FunctionResponse)
    (p : Platform) : Platform :=
  {| acquired := acquired p; audio_log := audio_log p; logs := logs p;
     console := console p; sent := f (sent p); timeouts := timeouts p;
     tab_changes := tab_changes p; reminders := reminders p;
     random_calls := random_calls p; next_id := next_id p |}.
Definition with_timeouts
    (f : list (Z * TimerAction) -> list (Z * TimerAction))
    (p : Platform) : Platform :=
  {| acquired := acquired p; audio_log := audio_log p; logs := logs p;
     console := console p; sent := sent p; timeouts := f (timeouts p);
     tab_changes := tab_changes p; reminders := reminders p;
     random_calls := random_calls p; next_id := next_id p |}.
Definition with_tab_changes (f : list AppMode -> list AppMode)
    (p : Platform) : Platform :=
  {| acquired := acquired p; audio_log := audio_log p; logs := logs p;
     console := console p; sent := sent p; timeouts := timeouts p;
     tab_changes := f (tab_changes p); reminders := reminders p;
     random_calls := random_calls p; next_id := next_id p |}.
Definition with_reminders
    (f : list (value * value) -> list (value * value))
    (p : Platform) : Platform :=
  {| acquired := acquired p; audio_log := audio_log p; logs := logs p;
     console := console p; sent := sent p; timeouts := timeouts p;
     tab_changes := tab_changes p; reminders := f (reminders p);
     random_calls := random_calls p; next_id := next_id p |}.
Definition with_random_calls (f : nat -> nat) (p : Platform) : Platform :=
  {| acquired := acquired p; audio_log := audio_log p; logs := logs p;
     console := console p; sent := sent p; timeouts := timeouts p;
     tab_changes := tab_changes p; reminders := reminders p;
     random_calls := f (random_calls p); next_id := next_id p |}.
Definition with_next_id (f : nat -> nat) (p : Platform) : Platform :=
  {| acquired := acquired p; audio_log := audio_log p; logs := logs p;
     console := console p; sent := sent p; timeouts := timeouts p;
     tab_changes := tab_changes p; reminders := reminders p;
     random_calls := random_calls p; next_id := f (next_id p) |}.

(** ** The handler monad *)

Definition M (A : Type) : Type := State -> State * Result A.

#[global] Instance M_ret : MRet M := fun A a s => (s, Ok a).
#[global] Instance M_bind : MBind M := fun A B k m s =>
  match m s with
  | (s', Ok a) => k a s'
  | (s', Throw e) => (s', Throw e)
  end.

Definition throw {A : Type} (e : exn) : M A := fun s => (s, Throw e).

(** [try { m } catch (e) { h }] *)
Definition try_catch {A : Type} (m : M A) (h : exn -> M A) : M A :=
  fun s =>
    match m s with
    | (s', Ok a) => (s', Ok a)
    | (s', Throw e) => h e s'
    end.

Definition gets {A : Type} (f : State -> A) : M A := fun s => (s, Ok (f s)).
Definition modify (f : State -> State) : M unit := fun s => (f s, Ok tt).

Definition lift {A : Type} (r : Result A) : M A := fun s => (s, r).

(** [for (const x of l) body(x)] and [l.forEach(body)]: a throw leaves
    the loop. *)
Fixpoint for_each {A : Type} (body : A -> M unit) (l : list A) : M unit :=
  match l with
  | [] => mret tt
  | x :: l' => body x ;; for_each body l'
  end.

Definition run {A : Type} (m : M A) (s : State) : State := fst (m s).
Definition outcome {A : Type} (m : M A) (s : State) : Result A := snd (m s).

(** ** What the component takes from its surroundings *)

(** Library functions of the JavaScript runtime, the audio helper imported
    from [utils/audioUtils] ([decodeAudioData] composed with
    [decodeBase64]), the remote model call made by the text service (the
    text of the response, empty when there is none, and its web sources),
    the component's optional props and the build-time API key.  [None]
    stands for a throw or a rejected promise. *)
Record Runtime : Type := {
  random : nat -> Q;
  toString : value -> string;
  toLowerCase : string -> string;
  toFixed2 : Q -> string;
  generateContent : value -> option (string * list value);
  decodeAudioData : string -> option AudioBuffer;
  onSetReminder : bool;
  onChangeTab : bool;
  API_KEY : bool
}.

Definition dquote : string := String (Ascii.ascii_of_nat 34) EmptyString.

(** [hay.includes(needle)] *)
Definition includes (hay needle : string) : bool :=
  match index 0 needle hay with
  | Some _ => true
  | None => false
  end.

(** [{ result: text }] and [{ error: text }] *)
Definition result_obj (text : string) : value :=
  JObj {[ "result" := JStr text ]}.
Definition error_obj (text : string) : value :=
  JObj {[ "error" := JStr text ]}.

(** [nextStartTimeRef.current = x || 0] *)
Definition or_zero (x : option time) : time :=
  match x with
  | Some t => if t =? 0 then 0 else t
  | None => 0
  end.

Section LiveSession.

Context (rt : Runtime).

(** *** Small steps *)

(** [addLog] hands the entry to the [onLog] prop; the callbacks received
    as props are taken not to throw. *)
Definition addLog (message : string) (type : LogType) : M unit :=
  modify (upd_env (with_logs
    (fun l => l ++ [{| log_message := message; log_type := type |}]))).

Definition console_error (message : string) : M unit :=
  modify (upd_env (with_console (fun l => l ++ [message]))).

Definition setStatus (v : string) : M unit := modify (upd_ui (with_status v)).
Definition setIsActive (v : bool) : M unit := modify (upd_ui (with_isActive v)).
Definition setIsCameraActive (v : bool) : M unit :=
  modify (upd_ui (with_isCameraActive v)).
Definition setVolume (v : Q) : M unit := modify (upd_ui (with_volume v)).
Definition setTask (t : TaskState) : M unit :=
  modify (upd_ui (with_task (fun _ => t))).
Definition updateTask (f : TaskState -> TaskState) : M unit :=
  modify (upd_ui (with_task f)).
Definition setActiveWidget (w : option WidgetData) : M unit :=
  modify (upd_ui (with_activeWidget w)).

Definition setTimeout (a : TimerAction) (delay : Z) : M unit :=
  modify (upd_env (with_timeouts (fun l => l ++ [(delay, a)]))).

Definition math_random : M Q :=
  n ← gets (fun s => random_calls (env s));
  modify (upd_env (with_random_calls S));;
  mret (random rt n).

(** A new object of the platform (context, node, stream, channel). *)
Definition fresh : M nat :=
  n ← gets (fun s => next_id (env s));
  modify (upd_env (with_next_id S));;
  mret n.

Definition acquire (r : Resource) : M unit :=
  modify (upd_env (with_acquired (fun l => l ++ [r]))).
Definition release (r : Resource) : M unit :=
  modify (upd_env (with_acquired (filter (fun x => x <> r)))).

(** [console.error(e)] for a caught exception. *)
Definition exn_name (e : exn) : string :=
  match e with
  | TypeError => "TypeError"
  | InvalidStateError => "InvalidStateError"
  | Rejected => "Rejected"
  end.

(** [source.stop()] *)
Definition stop_source (n : SourceNode) : M unit :=
  if src_started n
  then modify (upd_env (with_audio_log (fun l => l ++ [AStop (src_id n)])))
  else throw InvalidStateError.

(** The callbacks armed by [setTimeout]. *)
Definition run_timer (a : TimerAction) : M unit :=
  match a with
  | MarkCompleted =>
      updateTask (fun prev =>
        {| task_isActive := task_isActive prev; appName := appName prev;
           actionDescription := actionDescription prev;
           task_status := completed; details := details prev |})
  | MarkPayment =>
      updateTask (fun prev =>
        {| task_isActive := task_isActive prev; appName := appName prev;
           actionDescription := Some "Awaiting Authorization";
           task_status := payment; details := details prev |})
  | ResetTask => setTask idle_task
  end.

(** *** Teardown *)

Definition cleanupAudio : M unit :=
  srcs ← gets (fun s => sourcesRef (refs s));
  for_each stop_source srcs;;
  modify (upd_refs (with_sourcesRef []));;
  p ← gets (fun s => scriptProcessorRef (refs s));
  match p with
  | Some n => release (AudioNode n);;
              modify (upd_refs (with_scriptProcessorRef None))
  | None => mret tt
  end;;
  p ← gets (fun s => sourceNodeRef (refs s));
  match p with
  | Some n => release (AudioNode n);;
              modify (upd_refs (with_sourceNodeRef None))
  | None => mret tt
  end;;
  p ← gets (fun s => audioStreamRef (refs s));
  match p with
  | Some st => release (Tracks st);;
               modify (upd_refs (with_audioStreamRef None))
  | None => mret tt
  end;;
  p ← gets (fun s => inputContextRef (refs s));
  match p with
  | Some c => release (Context c);;
              modify (upd_refs (with_inputContextRef None))
  | None => mret tt
  end;;
  p ← gets (fun s => outputContextRef (refs s));
  match p with
  | Some c => release (Context c);;
              modify (upd_refs (with_outputContextRef None))
  | None => mret tt
  end;;
  p ← gets (fun s => sessionPromiseRef (refs s));
  match p with
  | Some ch => release (Channel ch)
  | None => mret tt
  end;;
  modify (upd_refs (with_sessionPromiseRef None)).

Definition cleanupVideo : M unit :=
  p ← gets (fun s => frameIntervalRef (refs s));
  match p with
  | Some i => release (Interval i);;
              modify (upd_refs (with_frameIntervalRef None))
  | None => mret tt
  end;;
  p ← gets (fun s => videoStreamRef (refs s));
  match p with
  | Some st => release (Tracks st);;
               modify (upd_refs (with_videoStreamRef None))
  | None => mret tt
  end.

Definition stopVideo : M unit :=
  cleanupVideo;; setIsCameraActive false.

Definition stopSession : M unit :=
  setIsActive false;;
  stopVideo;;
  cleanupAudio;;
  setStatus "SESSION TERMINATED";;
  setVolume 0%Q;;
  setActiveWidget None.

(** *** Acquisition *)

(** [navigator.mediaDevices.getUserMedia]: [granted] is the user's and
    the device's answer. *)
Definition getUserMedia (granted : bool) : M nat :=
  if granted
  then st ← fresh; acquire (Tracks st);; mret st
  else throw Rejected.

(** [startVideo]; attaching the stream to the video element is left
    out. *)
Definition startVideo (granted : bool) : M unit :=
  try_catch
    (stream ← getUserMedia granted;
     modify (upd_refs (with_videoStreamRef (Some stream)));;
     i ← fresh;
     acquire (Interval (Pos.of_succ_nat i));;
     modify (upd_refs (with_frameIntervalRef (Some (Pos.of_succ_nat i))));;
     setIsCameraActive true;;
     addLog "Visual Sensors: Online" info)
    (fun _ =>
     console_error "Camera access failed";;
     setIsCameraActive false).

(** [startSession]; [now] is [currentTime] of the output context it
    creates.  The gain node lives and dies with the output context. *)
Definition startSession (mic_granted : bool) (now : time) : M unit :=
  if negb (API_KEY rt) then setStatus "Error: API Key missing"
  else
    try_catch
      (setStatus "INITIALIZING NEURAL LINK...";;
       addLog "Initializing Audio Context..." info;;
       setIsActive true;;
       inputCtx ← fresh;
       acquire (Context inputCtx);;
       outputCtx ← fresh;
       acquire (Context outputCtx);;
       modify (upd_refs (with_inputContextRef (Some inputCtx)));;
       modify (upd_refs (with_outputContextRef (Some outputCtx)));;
       modify (upd_refs (with_nextStartTimeRef now));;
       stream ← getUserMedia mic_granted;
       modify (upd_refs (with_audioStreamRef (Some stream)));;
       setStatus "ESTABLISHING UPLINK...";;
       sessionPromise ← fresh;
       acquire (Channel sessionPromise);;
       modify (upd_refs (with_sessionPromiseRef (Some sessionPromise))))
      (fun _ =>
       setStatus "INITIALIZATION FAILED";;
       setIsActive false;;
       cleanupAudio).

Definition onopen : M unit :=
  setStatus "NEURAL LINK ACTIVE";;
  addLog "Connection Established" info;;
  source ← fresh;
  acquire (AudioNode source);;
  modify (upd_refs (with_sourceNodeRef (Some source)));;
  processor ← fresh;
  acquire (AudioNode processor);;
  modify (upd_refs (with_scriptProcessorRef (Some processor))).

Definition onclose : M unit :=
  setStatus "DISCONNECTED";; setIsActive false.

Definition handlePayment : M unit :=
  run_timer MarkCompleted;;
  addLog "Payment Authorization: Success" info;;
  setTimeout ResetTask 3000.

Definition onerror : M unit :=
  setStatus "CONNECTION ERROR";;
  addLog "Protocol Failure" error;;
  setIsActive false.

(** *** Text service *)

(** [generateTextResponse(prompt, ChatModelType.SEARCH)] of the service
    module: it reads the API key (logging when it is missing), makes the
    remote call, falls back to a fixed text when the response has none,
    and logs and rethrows any failure. *)
Definition generateTextResponse (prompt : value) : M (string * value) :=
  (if API_KEY rt then mret tt
   else console_error "API_KEY is missing from environment variables.");;
  match generateContent rt prompt with
  | Some (text, sources) =>
      let text :=
        if bool_decide (text = "") then
          match sources with
          | [] => "I couldn't generate a response."
          | _ :: _ => "I found some results on the web. (See sources)"
          end
        else text in
      mret (text, JArr sources)
  | None => console_error "Error generating text:";; throw Rejected
  end.

(** *** Tool dispatcher *)

(** [fc.args[k]]: [args] is optional in the SDK's [FunctionCall]. *)
Definition arg (fc : FunctionCall) (k : string) : M value :=
  match fc_args fc with
  | Some a => mret (field a k)
  | None => throw TypeError
  end.

(** [a + b] where [b] is a number.  Numbers are exact rationals: the sum
    is not rounded to a binary64 value. *)
Definition js_add_num (a : value) (b : Q) : value :=
  match a with
  | JNum q => JNum (q + b)
  | JBool true => JNum (1 + b)
  | JBool false | JNull => JNum (0 + b)
  | JUndefined | JNaN => JNaN
  | JStr s => JStr (s +:+ toString rt (JNum b))
  | JArr _ | JObj _ => JStr (toString rt a +:+ toString rt (JNum b))
  end.

(** [Array.from({length: n}, () => m)] *)
Fixpoint array_from {A : Type} (n : nat) (m : M A) : M (list A) :=
  match n with
  | O => mret []
  | S n' => x ← m; l ← array_from n' m; mret (x :: l)
  end.

Definition render_widget (fc : FunctionCall) : M value :=
  type ← arg fc "widget_type";
  data ← arg fc "data";
  (if str_is type "weather_card" then
     location ← lift (get_prop data "location");
     temp ← lift (get_prop data "temp");
     condition ← lift (get_prop data "condition");
     setActiveWidget (Some (weather (js_or location (JStr "Unknown"))
                                    (js_or temp (JNum 22))
                                    (js_or condition (JStr "Sunny"))))
   else if str_is type "stock_chart" then
     symbol ← lift (get_prop data "symbol");
     price ← lift (get_prop data "price");
     history ← array_from 10
       (p ← lift (get_prop data "price");
        r ← math_random;
        mret (js_add_num (js_or p (JNum 100)) (r * 10 - 5)%Q));
     setActiveWidget (Some (stock (js_or symbol (JStr "STK"))
                                  (js_or price (JNum 100)) history))
   else if str_is type "map_view" then
     location ← lift (get_prop data "location");
     setActiveWidget (Some (map_widget location 35.6762%Q 139.6503%Q))
   else if str_is type "note_pad" then
     title ← lift (get_prop data "title");
     content ← lift (get_prop data "content");
     setActiveWidget (Some (note (js_or title (JStr "Note"))
                                 (js_or content (JStr ""))))
   else mret tt);;
  addLog ("Rendering UI: " +:+ toString rt type) thought;;
  mret (result_obj "Widget rendered successfully.").

Definition set_reminder (fc : FunctionCall) : M value :=
  (if onSetReminder rt then
     message ← arg fc "message";
     delay ← arg fc "delay_seconds";
     modify (upd_env (with_reminders (fun l => l ++ [(message, delay)])))
   else mret tt);;
  mret (result_obj "Reminder set.").

Definition change_tab (fc : FunctionCall) : M value :=
  name ← arg fc "tab_name";
  tab ← match name with
        | JStr s => mret (toLowerCase rt s)
        | _ => throw TypeError
        end;
  (if onChangeTab rt then
     let go m := modify (upd_env (with_tab_changes (fun l => l ++ [m]))) in
     if includes tab "chat" then go CHAT
     else if includes tab "term" then go TERMINAL
     else if includes tab "live" then go LIVE
     else mret tt
   else mret tt);;
  mret (result_obj ("Switched view to " +:+ tab)).

Definition get_weather (fc : FunctionCall) : M value :=
  r ← math_random;
  location ← arg fc "location";
  let picked := match Qfloor (r * 2) with
                | 0 => JStr "Sunny"
                | 1 => JStr "Rainy"
                | _ => JUndefined
                end in
  mret (JObj (<["weather" := picked]>
             (<["temperature" := JNum 25]>
             (<["unit" := JStr "Celsius"]>
             (<["location" := location]> ∅))))).

Definition get_stock_price (fc : FunctionCall) : M value :=
  symbol ← arg fc "symbol";
  r ← math_random;
  mret (JObj (<["symbol" := symbol]>
             (<["price" := JStr (toFixed2 rt (r * 1000)%Q)]>
             (<["currency" := JStr "USD"]> ∅)))).

Definition search_web (fc : FunctionCall) : M value :=
  query ← arg fc "query";
  setTask {| task_isActive := true; appName := Some (JStr "NetSearch");
             task_status := searching;
             actionDescription :=
               Some ("QUERYING GLOBAL NETWORK: " +:+ dquote
                     +:+ toString rt query +:+ dquote);
             details := None |};;
  query ← arg fc "query";
  searchResponse ← generateTextResponse query;
  setTimeout MarkCompleted 1000;;
  setTimeout ResetTask 2000;;
  mret (JObj (<["result" := JStr (fst searchResponse)]>
             (<["metadata" :=
                 JObj {[ "sources" := snd searchResponse ]}]> ∅))).

Definition order_food (fc : FunctionCall) : M value :=
  item ← arg fc "item";
  setTask {| task_isActive := true; appName := Some (JStr "FoodDelivery");
             task_status := processing;
             actionDescription :=
               Some ("Ordering " +:+ toString rt item +:+ "...");
             details :=
               Some (JObj (<["item" := item]>
                          (<["price" := JStr "25.00"]> ∅))) |};;
  setTimeout MarkPayment 2000;;
  mret (result_obj "Order staged. Waiting for payment.").

Definition open_app (fc : FunctionCall) : M value :=
  app ← arg fc "app_name";
  setTask {| task_isActive := true; appName := Some app;
             task_status := opening;
             actionDescription := Some "LAUNCHING...";
             details := None |};;
  setTimeout ResetTask 2000;;
  mret (result_obj "App opened.").

(** The body of the [try] block: the value [result] holds when the block
    is left normally.  [result] comes in holding its initial value. *)
Definition tool_body (fc : FunctionCall) (result : value) : M value :=
  if bool_decide (fc_name fc = "render_widget") then render_widget fc
  else if bool_decide (fc_name fc = "set_reminder") then set_reminder fc
  else if bool_decide (fc_name fc = "change_tab") then change_tab fc
  else if bool_decide (fc_name fc = "get_weather") then get_weather fc
  else if bool_decide (fc_name fc = "get_stock_price") then get_stock_price fc
  else if bool_decide (fc_name fc = "search_web") then search_web fc
  else if bool_decide (fc_name fc = "order_food") then order_food fc
  else if bool_decide (fc_name fc = "open_app") then open_app fc
  else mret result.

Definition sendToolResponse (r : FunctionResponse) : M unit :=
  modify (upd_env (with_sent (fun l => l ++ [r]))).

(** One turn of the [for (const fc of ...)] loop. *)
Definition dispatch (fc : FunctionCall) : M unit :=
  addLog ("Exec: " +:+ fc_name fc) tool;;
  result ← try_catch (tool_body fc (result_obj "ok"))
             (fun e =>
              console_error (exn_name e);;
              mret (error_obj "Tool execution failed"));
  sendToolResponse
    {| fr_id := fc_id fc; fr_name := fc_name fc; fr_response := result |}.

(** *** Interruption handler and playback scheduler *)

Definition interrupt (now : time) : M unit :=
  addLog "User Interruption Detected" info;;
  srcs ← gets (fun s => sourcesRef (refs s));
  for_each (fun source => try_catch (stop_source source) (fun _ => mret tt))
           srcs;;
  modify (upd_refs (with_sourcesRef []));;
  ctx ← gets (fun s => outputContextRef (refs s));
  modify (upd_refs (with_nextStartTimeRef
                      (or_zero (match ctx with
                                | Some _ => Some now
                                | None => None
                                end)))).

Definition schedule (base64Audio : string) (now : time) : M unit :=
  w ← gets (fun s => nextStartTimeRef (refs s));
  modify (upd_refs (with_nextStartTimeRef (Z.max w now)));;
  audioBuffer ← match decodeAudioData rt base64Audio with
                | Some b => mret b
                | None => throw Rejected
                end;
  id ← fresh;
  start ← gets (fun s => nextStartTimeRef (refs s));
  modify (upd_env (with_audio_log
                     (fun l => l ++ [AStart id start (duration audioBuffer)])));;
  modify (upd_refs (with_nextStartTimeRef (start + duration audioBuffer)));;
  srcs ← gets (fun s => sourcesRef (refs s));
  modify (upd_refs (with_sourcesRef
                      (srcs ++ [{| src_id := id; src_buffer := audioBuffer;
                                   src_started := true |}]))).

(** The ['ended'] listener of a source: [sourcesRef.current.delete(source)]. *)
Definition on_ended (id : nat) : M unit :=
  srcs ← gets (fun s => sourcesRef (refs s));
  modify (upd_refs (with_sourcesRef
                      (filter (fun n => src_id n <> id) srcs))).

(** [onmessage]; [now] is [currentTime] of the output context when the
    handler reads it.  The handler is run to completion: what other
    callbacks do while it awaits a search or a decode is not interleaved
    with it. *)
Definition onmessage (message : LiveServerMessage) (now : time) : M unit :=
  if interrupted message then interrupt now
  else
    match toolCall message with
    | Some (Some functionCalls) => for_each dispatch functionCalls
    | Some None => throw TypeError
    | None => mret tt
    end;;
    match inlineData message with
    | Some base64Audio =>
        if bool_decide (base64Audio = "") then mret tt
        else schedule base64Audio now
    | None => mret tt
    end.

End LiveSession.

(** ** Events of a running session *)

(** Everything that can happen to the component between [startSession]
    and the end of the session: server messages, the end of a source,
    timeouts, channel callbacks and the user's buttons. *)
Inductive Event : Type :=
  | EvMessage (message : LiveServerMessage) (now : time)
  | EvEnded (id : nat)
  | EvTimer (a : TimerAction)
  | EvOpen
  | EvClose
  | EvError
  | EvStartVideo (granted : bool)
  | EvStopVideo
  | EvPayment
  | EvStop.

Definition handle (rt : Runtime) (ev : Event) : M unit :=
  match ev with
  | EvMessage message now => onmessage rt message now
  | EvEnded id => on_ended id
  | EvTimer a => run_timer a
  | EvOpen => onopen
  | EvClose => onclose
  | EvError => onerror
  | EvStartVideo granted => startVideo granted
  | EvStopVideo => stopVideo
  | EvPayment => handlePayment
  | EvStop => stopSession
  end.

Definition is_interrupt (ev : Event) : bool :=
  match ev with
  | EvMessage message _ => interrupted message
  | _ => false
  end.

(** ** Vocabulary of the statements *)

(** The names of the eight declared tools. *)
Definition declared_tools : list string :=
  ["set_reminder"; "change_tab"; "get_weather"; "get_stock_price";
   "open_app"; "order_food"; "search_web"; "render_widget"].

(** A response payload that carries an [error] entry. *)
Definition is_error_payload (v : value) : bool :=
  match v with
  | JObj m => bool_decide (is_Some (m !! "error"))
  | _ => false
  end.

(** A message that only carries an audio chunk. *)
Definition chunk_message (base64Audio : string) : LiveServerMessage :=
  {| interrupted := false; toolCall := None; inlineData := Some base64Audio |}.

(** A message that only carries a batch of tool calls. *)
Definition tool_message (calls : list FunctionCall) : LiveServerMessage :=
  {| interrupted := false; toolCall := Some (Some calls); inlineData := None |}.

Definition interrupt_message : LiveServerMessage :=
  {| interrupted := true; toolCall := None; inlineData := None |}.

(** Every source of the live set has been started: what the scheduler
    establishes, since it calls [start] before [add]. *)
Definition live_started (s : State) : Prop :=
  Forall (fun n => src_started n = true) (sourcesRef (refs s)).

(** The start times of the [start] calls of a log, in order. *)
Definition starts (l : list AudioEvent) : list time :=
  omap (fun e => match e with AStart _ w _ => Some w | AStop _ => None end) l.

(** Chunks handled one after the other, each to completion: the data of
    each and the clock reading of its handler. *)
Definition play (rt : Runtime) (chunks : list (string * time)) : M unit :=
  for_each (fun c => onmessage rt (chunk_message (fst c)) (snd c)) chunks.

(** [chained w arrivals ss]: the first start is [max w now1], and each
    later start is the larger of the end of the chunk before it and the
    clock reading of its own handler.  An arrival is the clock reading
    and the duration of a chunk. *)
Fixpoint chained (w : time) (arrivals : list (time * Z)) (ss : list time)
    : Prop :=
  match arrivals, ss with
  | [], [] => True
  | (now, d) :: arrivals', s0 :: ss' =>
      s0 = Z.max w now /\ chained (s0 + d) arrivals' ss'
  | _, _ => False
  end.

(** [gapless arrivals ss]: every start but the first is the start before
    it plus the duration before it. *)
Fixpoint gapless (arrivals : list (time * Z)) (ss : list time) : Prop :=
  match arrivals, ss with
  | (_, d) :: ((_ :: _) as arrivals'), s0 :: ((s1 :: _) as ss') =>
      s1 = s0 + d /\ gapless arrivals' ss'
  | _, _ => True
  end.

(** [on_time w arrivals]: no chunk but the first is handled after the
    end of the chunk before it. *)
Fixpoint on_time (w : time) (arrivals : list (time * Z)) : Prop :=
  match arrivals with
  | [] => True
  | (now, d) :: arrivals' =>
      match arrivals' with
      | [] => True
      | (now', _) :: _ => now' <= Z.max w now + d
      end /\ on_time (Z.max w now + d) arrivals'
  end.

(** The resources the refs point to. *)
Definition held (r : Refs) : list Resource :=
  option_list (AudioNode <$> scriptProcessorRef r) ++
  option_list (AudioNode <$> sourceNodeRef r) ++
  option_list (Tracks <$> audioStreamRef r) ++
  option_list (Context <$> inputContextRef r) ++
  option_list (Context <$> outputContextRef r) ++
  option_list (Channel <$> sessionPromiseRef r) ++
  option_list (Interval <$> frameIntervalRef r) ++
  option_list (Tracks <$> videoStreamRef r).

(** Nothing is referenced any more. *)
Definition torn_down (r : Refs) : Prop :=
  held r = [] /\ sourcesRef r = [].

(** The session goes on without the microphone. *)
Definition continues_without_capture (s : State) : Prop :=
  isActive (ui s) = true /\ is_Some (sessionPromiseRef (refs s)) /\
  audioStreamRef (refs s) = None.

(** Something was written to the diagnostic log or to the console
    between [s] and [s']. *)
Definition failure_logged (s s' : State) : Prop :=
  logs (env s') <> logs (env s) \/ console (env s') <> console (env s).

(** [answers rt fc r]: [r] is a response to [fc]: it bears its id and its
    name, and its payload is what the handler of [fc] returned in some
    state, or the error payload if the handler threw there. *)
Definition answers (rt : Runtime) (fc : FunctionCall)
    (r : FunctionResponse) : Prop :=
  fr_id r = fc_id fc /\ fr_name r = fc_name fc /\
  exists s0,
    match outcome (tool_body rt fc (result_obj "ok")) s0 with
    | Ok v => fr_response r = v
    | Throw _ => fr_response r = error_obj "Tool execution failed"
    end.

(** The clock reading and the duration of each chunk of a sequence. *)
Definition arrivals (rt : Runtime) (chunks : list (string * time))
    : list (time * Z) :=
  map (fun c => (snd c,
                 from_option duration 0 (decodeAudioData rt (fst c)))) chunks.

(** A chunk that [onmessage] sees and that decodes. *)
Definition decodable (rt : Runtime) (c : string * time) : Prop :=
  fst c <> "" /\ is_Some (decodeAudioData rt (fst c)).

(** The state a chunk leaves behind when it decodes to [buf]. *)
Definition scheduled (s : State) (now : time) (buf : AudioBuffer) : State :=
  let start := Z.max (nextStartTimeRef (refs s)) now in
  let id := next_id (env s) in
  upd_refs (with_sourcesRef
              (sourcesRef (refs s) ++
               [{| src_id := id; src_buffer := buf; src_started := true |}]))
    (upd_refs (with_nextStartTimeRef (start + duration buf))
       (upd_env (with_audio_log
                   (fun l => l ++ [AStart id start (duration buf)]))
          (upd_env (with_next_id S)
             (upd_refs (with_nextStartTimeRef start) s)))).

(** The [stop] calls that flush a live set. *)
Definition stops (srcs : list SourceNode) : list AudioEvent :=
  map (fun n => AStop (src_id n)) srcs.

(** The state an interrupt leaves behind when every live source stops. *)
Definition interrupted_state (s : State) (now : time) : State :=
  upd_refs (with_nextStartTimeRef
              (or_zero (match outputContextRef (refs s) with
                        | Some _ => Some now
                        | None => None
                        end)))
    (upd_refs (with_sourcesRef [])
       (upd_env (with_audio_log (fun l => l ++ stops (sourcesRef (refs s))))
          (upd_env (with_logs (fun l => l ++
              [{| log_message := "User Interruption Detected";
                  log_type := info |}])) s))).

(** The refs after [cleanupAudio]. *)
Definition released_refs (r : Refs) : Refs :=
  {| inputContextRef := None; outputContextRef := None;
     sessionPromiseRef := None; scriptProcessorRef := None;
     sourceNodeRef := None; audioStreamRef := None;
     nextStartTimeRef := nextStartTimeRef r; sourcesRef := [];
     videoStreamRef := videoStreamRef r;
     frameIntervalRef := frameIntervalRef r |}.

(** The React state and the refs after [stopSession]. *)
Definition stopped_ui (u : Ui) : Ui :=
  {| isActive := false; isCameraActive := false;
     status := "SESSION TERMINATED"; volume := 0%Q; task := task u;
     activeWidget := None |}.

Definition stopped_refs (r : Refs) : Refs :=
  {| inputContextRef := None; outputContextRef := None;
     sessionPromiseRef := None; scriptProcessorRef := None;
     sourceNodeRef := None; audioStreamRef := None;
     nextStartTimeRef := nextStartTimeRef r; sourcesRef := [];
     videoStreamRef := None; frameIntervalRef := None |}.

(** [preserves f m]: running [m] never changes the observation [f]. *)
Definition preserves {A B : Type} (f : State -> B) (m : M A) : Prop :=
  forall s, f (fst (m s)) = f s.

(** ** Sample inputs *)

(** Three decodable payloads of 0.50 s, 0.30 s and 0.20 s; anything else
    fails to decode. *)
Definition sample_decode (data : string) : option AudioBuffer :=
  if bool_decide (data = "A") then Some {| buf_length := 12000 |}
  else if bool_decide (data = "B") then Some {| buf_length := 7200 |}
  else if bool_decide (data = "C") then Some {| buf_length := 4800 |}
  else None.

Definition sample_runtime : Runtime :=
  {| random := fun _ => 0%Q;
     toString := fun v => match v with JStr s => s | _ => "" end;
     toLowerCase := fun s => s;
     toFixed2 := fun _ => "0.00";
     generateContent := fun _ => None;
     decodeAudioData := sample_decode;
     onSetReminder := false;
     onChangeTab := true;
     API_KEY := true |}.

Definition tokyo_args : gmap string value :=
  <["widget_type" := JStr "weather_card"]>
    (<["data" := JObj (<["location" := JStr "Tokyo"]>
                      (<["temp" := JNum 22]>
                      (<["condition" := JStr "Clear"]> ∅)))]> ∅).

Definition tokyo_call : FunctionCall :=
  {| fc_id := "call-2"; fc_name := "render_widget";
     fc_args := Some tokyo_args |}.

Definition foo_bar_call : FunctionCall :=
  {| fc_id := "call-1"; fc_name := "foo_bar"; fc_args := Some ∅ |}.

(** A [change_tab] call without arguments: its handler throws. *)
Definition bad_tab_call : FunctionCall :=
  {| fc_id := "call-0"; fc_name := "change_tab"; fc_args := None |}.

Definition pie_call : FunctionCall :=
  {| fc_id := "call-3"; fc_name := "render_widget";
     fc_args := Some (<["widget_type" := JStr "pie_chart"]> ∅) |}.

Definition three_chunks : list (string * time) :=
  [("A", 0); ("B", 0); ("C", 0)].

Definition late_chunks : list (string * time) :=
  [("A", 0); ("B", 48000)].

(** A session that was started and opened and has one chunk playing,
    and the same session after [stopSession]. *)
Definition live_session : State :=
  run (onmessage sample_runtime (chunk_message "A") 0)
    (run onopen (run (startSession sample_runtime true 0) initial_state)).

Definition stopped_session : State := run stopSession live_session.

(** ** More of the component *)

(** [toggleCamera]; the result is the text of the alert it shows, if
    any. *)
Definition toggleCamera (granted : bool) : M (option string) :=
  camera ← gets (fun s => isCameraActive (ui s));
  if (camera : bool) then (stopVideo;; mret None)
  else
    active ← gets (fun s => isActive (ui s));
    if (active : bool) then (startVideo granted;; mret None)
    else mret (Some "Connect to Agent first.").

(** [captureAndSendFrame]; [video] and [canvas] tell whether the two
    element refs are set, [context2d] whether the canvas gives a drawing
    context, and [blob] is the base64 text of the JPEG the canvas
    produces, if it produces one.  The result is the frame handed to
    [session.sendRealtimeInput], if any. *)
Definition captureAndSendFrame (video canvas context2d : bool)
    (blob : option string) : M (option string) :=
  session ← gets (fun s => sessionPromiseRef (refs s));
  if negb video || negb canvas ||
     match session with Some _ => false | None => true end
  then mret None
  else if negb context2d then mret None
  else
    match blob with
    | Some base64 =>
        session ← gets (fun s => sessionPromiseRef (refs s));
        match session with
        | Some _ => mret (Some base64)
        | None => mret None
        end
    | None => mret None
    end.

(** The button under the orb: [isActive ? stopSession : startSession]. *)
Definition toggleSession (rt : Runtime) (mic_granted : bool) (now : time)
    : M unit :=
  active ← gets (fun s => isActive (ui s));
  if (active : bool) then stopSession else startSession rt mic_granted now.

(** ** Invariants of a session *)

(** The number from which a resource was made: the platform numbers its
    objects in the order it creates them. *)
Definition resource_rank (r : Resource) : nat :=
  match r with
  | Tracks n | AudioNode n | Context n | Channel n => n
  | Interval p => Nat.pred (Pos.to_nat p)
  end.

(** Nothing that exists bears a number the platform has yet to give out,
    no two live sources are the same source, and every live source has
    been started. *)
Definition session_inv (s : State) : Prop :=
  live_started s /\
  Forall (fun r => (resource_rank r < next_id (env s))%nat)
         (acquired (env s)) /\
  Forall (fun n => (src_id n < next_id (env s))%nat) (sourcesRef (refs s)) /\
  NoDup (map src_id (sourcesRef (refs s))).

(** The states a component can be in: it starts in [initial_state], and
    then sessions are started and events handled. *)
Inductive reachable (rt : Runtime) : State -> Prop :=
  | reach_initial : reachable rt initial_state
  | reach_start s mic_granted now :
      reachable rt s ->
      reachable rt (run (startSession rt mic_granted now) s)
  | reach_event s ev :
      reachable rt s ->
      reachable rt (run (handle rt ev) s).

(** Events handled one after the other, each by its own handler run. *)
Definition handle_all (rt : Runtime) (evs : list Event) (s : State) : State :=
  fold_left (fun s ev => run (handle rt ev) s) evs s.

(** [disjoint_from w evs]: no [start] of [evs] is given a time before the
    end of the buffer started before it, nor before [w]. *)
Fixpoint disjoint_from (w : time) (evs : list AudioEvent) : Prop :=
  match evs with
  | [] => True
  | AStart _ t d :: evs' => w <= t /\ disjoint_from (t + d) evs'
  | AStop _ :: evs' => disjoint_from w evs'
  end.

(** The end of the last buffer started in [evs], or [w] if there is
    none. *)
Fixpoint last_end (w : time) (evs : list AudioEvent) : time :=
  match evs with
  | [] => w
  | AStart _ t d :: evs' => last_end (t + d) evs'
  | AStop _ :: evs' => last_end w evs'
  end.





(** The pseudo-random numbers are in the range of [Math.random]. *)
Definition random_in_range (rt : Runtime) : Prop :=
  forall n, (0 <= random rt n)%Q /\ (random rt n < 1)%Q.

(** ** The application shell *)

(** [l.slice(-n)]: the last [n] elements, all of them when there are
    fewer. *)
Definition slice_last {A : Type} (n : nat) (l : list A) : list A :=
  drop (length l - n) l.

(** [handleLog] of [App], the [onLog] prop of the live session:
    [setLogs(prev => [...prev.slice(-99), entry])]. *)
Definition handleLog (entry : LogEntry) (prev : list LogEntry)
    : list LogEntry :=
  slice_last 99 prev ++ [entry].

(** The log shown by the terminal tab after the entries of [entries] have
    been reported one by one. *)
Definition terminal_log (entries : list LogEntry) : list LogEntry :=
  fold_left (fun prev entry => handleLog entry prev) entries [].

(** ** The text service *)

Inductive ChatModelType : Type := FAST | SEARCH.

Inductive Role : Type := user | model.

Inductive VoiceName : Type := Puck | Charon | Kore | Fenrir | Zephyr.

Record Image : Type := { image_data : string; image_mimeType : string }.

Record ChatMessage : Type := {
  msg_id : string;
  msg_role : Role;
  msg_text : string;
  msg_timestamp : Z;
  msg_sources : option (list value);
  msg_image : option Image
}.

Inductive Part : Type :=
  | TextPart (text : string)
  | InlineDataPart (data mimeType : string).

Record Content : Type := { role : Role; parts : list Part }.

(** The request [generateTextResponse] hands to [generateContent]; the
    system instruction, which carries the date, is left out. *)
Record TextRequest : Type := {
  request_model : string;
  contents : list Content;
  googleSearch : bool
}.

Definition past_content (msg : ChatMessage) : Content :=
  {| role := msg_role msg; parts := [TextPart (msg_text msg)] |}.

Definition current_content (prompt : string) (image : option Image)
    : Content :=
  {| role := user;
     parts := TextPart prompt ::
              match image with
              | Some i => [InlineDataPart (image_data i) (image_mimeType i)]
              | None => []
              end |}.

Definition text_request (prompt : string) (modelType : ChatModelType)
    (history : list ChatMessage) (image : option Image) : TextRequest :=
  {| request_model := match modelType with
                      | FAST => "gemini-flash-lite-latest"
                      | SEARCH => "gemini-2.5-flash"
                      end;
     contents := (past_content <$> slice_last 50 history) ++
                 [current_content prompt image];
     googleSearch := match modelType with SEARCH => true | FAST => false end
  |}.

(** What the services and the two sessions below take from outside: the
    API key, the remote calls (for text: the text of the response, empty
    when it has none, and its web sources; for speech: the audio data of
    the response, if any), [String.prototype.trim], the decoder of
    [utils/audioUtils] and the rendering of a number as text. *)
Record Services : Type := {
  api_key : bool;
  remote_text : TextRequest -> option (string * list value);
  remote_speech : string -> VoiceName -> option (option string);
  trim : string -> string;
  decode_speech : string -> option AudioBuffer;
  show_number : Z -> string
}.

(** [generateTextResponse] with its four arguments, as the chat calls it:
    the lines it writes to the console and its result. *)
Definition generate_text (sv : Services) (prompt : string)
    (modelType : ChatModelType) (history : list ChatMessage)
    (image : option Image) : list string * Result (string * list value) :=
  let key_line :=
    if api_key sv then []
    else ["API_KEY is missing from environment variables."] in
  match remote_text sv (text_request prompt modelType history image) with
  | Some (text, sources) =>
      let text :=
        if bool_decide (text = "") then
          match sources with
          | [] => "I couldn't generate a response."
          | _ :: _ => "I found some results on the web. (See sources)"
          end
        else text in
      (key_line, Ok (text, sources))
  | None => (key_line ++ ["Error generating text:"], Throw Rejected)
  end.

(** [generateSpeech]: the lines it writes to the console and its
    result. *)
Definition generateSpeech (sv : Services) (text : string)
    (voiceName : VoiceName) : list string * Result string :=
  let key_line :=
    if api_key sv then []
    else ["API_KEY is missing from environment variables."] in
  match remote_speech sv text voiceName with
  | Some (Some audioData) =>
      if bool_decide (audioData = "")
      then (key_line ++ ["TTS Error:"], Throw Rejected)
      else (key_line, Ok audioData)
  | Some None | None => (key_line ++ ["TTS Error:"], Throw Rejected)
  end.

(** ** The chat session *)

Record Chat : Type := {
  messages : list ChatMessage;
  input : string;
  chat_isLoading : bool;
  mode : ChatModelType;
  selectedImage : option Image;
  chat_console : list string
}.

(** [handleSend]; [now] and [later] are the readings of [Date.now()] when
    the message is sent and when the answer, or the failure, arrives. *)
Definition handleSend (sv : Services) (now later : Z) (c : Chat) : Chat :=
  if (bool_decide (trim sv (input c) = "") &&
      match selectedImage c with Some _ => false | None => true end)
     || chat_isLoading c
  then c
  else
    let userMsg :=
      {| msg_id := show_number sv now; msg_role := user;
         msg_text := input c; msg_timestamp := now; msg_sources := None;
         msg_image := selectedImage c |} in
    let (lines, response) :=
      generate_text sv (input c) (mode c) (messages c) (selectedImage c) in
    let reply :=
      match response with
      | Ok (text, sources) =>
          {| msg_id := show_number sv (later + 1); msg_role := model;
             msg_text := text; msg_timestamp := later;
             msg_sources := Some sources; msg_image := None |}
      | Throw _ =>
          {| msg_id := show_number sv later; msg_role := model;
             msg_text := "Error: Neural net unresponsive.";
             msg_timestamp := later; msg_sources := None;
             msg_image := None |}
      end in
    {| messages := (messages c ++ [userMsg]) ++ [reply];
       input := ""; chat_isLoading := false; mode := mode c;
       selectedImage := None; chat_console := chat_console c ++ lines |}.

(** ** The text-to-speech session *)

Record Tts : Type := {
  tts_text : string;
  selectedVoice : VoiceName;
  isPlaying : bool;
  tts_isLoading : bool;
  open_contexts : list nat;
  started_sources : list (nat * AudioBuffer);
  alerts : list string;
  tts_console : list string;
  tts_next : nat
}.

(** The [catch] and [finally] of [handleGenerate]. *)
Definition speech_failed (lines : list string) (contexts : list nat)
    (next : nat) (t : Tts) : Tts :=
  {| tts_text := tts_text t; selectedVoice := selectedVoice t;
     isPlaying := false; tts_isLoading := false;
     open_contexts := contexts; started_sources := started_sources t;
     alerts := alerts t ++ ["Failed to generate speech."];
     tts_console := (tts_console t ++ lines) ++ ["TTS play error"];
     tts_next := next |}.

(** [handleGenerate]: a source is started in a context made for it. *)
Definition handleGenerate (sv : Services) (t : Tts) : Tts :=
  if bool_decide (trim sv (tts_text t) = "") then t
  else
    match generateSpeech sv (tts_text t) (selectedVoice t) with
    | (lines, Throw _) => speech_failed lines (open_contexts t) (tts_next t) t
    | (lines, Ok base64Audio) =>
        let ctx := tts_next t in
        match decode_speech sv base64Audio with
        | None =>
            speech_failed lines (open_contexts t ++ [ctx]) (S (tts_next t)) t
        | Some audioBuffer =>
            {| tts_text := tts_text t; selectedVoice := selectedVoice t;
               isPlaying := true; tts_isLoading := false;
               open_contexts := open_contexts t ++ [ctx];
               started_sources := started_sources t ++ [(ctx, audioBuffer)];
               alerts := alerts t; tts_console := tts_console t ++ lines;
               tts_next := S (tts_next t) |}
        end
    end.

(** [source.onended] of the source started in context [ctx]. *)
Definition speech_ended (ctx : nat) (t : Tts) : Tts :=
  {| tts_text := tts_text t; selectedVoice := selectedVoice t;
     isPlaying := false; tts_isLoading := tts_isLoading t;
     open_contexts := filter (fun c => c <> ctx) (open_contexts t);
     started_sources := started_sources t; alerts := alerts t;
     tts_console := tts_console t; tts_next := tts_next t |}.

(** ** Vocabulary of the further statements *)

(** The log line the dispatcher writes for a call, and the response to a
    call with a given payload. *)
Definition exec_line (fc : FunctionCall) : LogEntry :=
  {| log_message := "Exec: " +:+ fc_name fc; log_type := tool |}.

Definition response (fc : FunctionCall) (payload : value)
    : FunctionResponse :=
  {| fr_id := fc_id fc; fr_name := fc_name fc; fr_response := payload |}.

(** The tools whose handler reads the arguments before anything else can
    go wrong: all but [set_reminder]. *)
Definition needs_args : list string :=
  ["render_widget"; "change_tab"; "get_weather"; "get_stock_price";
   "search_web"; "order_food"; "open_app"].

(** The four discriminators of [render_widget]. *)
Definition widget_types : list value :=
  [JStr "weather_card"; JStr "stock_chart"; JStr "map_view";
   JStr "note_pad"].

(** [Math.random() * 10 - 5] for the draw numbered [n]. *)
Definition swing (rt : Runtime) (n : nat) : Q := (random rt n * 10 - 5)%Q.

(** The tab a lower-cased tab name selects, if the component was given
    [onChangeTab] and the name holds one of the three words. *)
Definition routed (rt : Runtime) (tab : string) : list AppMode :=
  if onChangeTab rt then
    if includes tab "chat" then [CHAT]
    else if includes tab "term" then [TERMINAL]
    else if includes tab "live" then [LIVE]
    else []
  else [].

(** A handler that touches neither the refs nor the platform's objects. *)
Definition quiet {A : Type} (m : M A) : Prop :=
  preserves refs m /\
  preserves (fun s => acquired (env s)) m /\
  preserves (fun s => next_id (env s)) m.

(** The sources of a list on which [stop] does not throw. *)
Definition started_only (srcs : list SourceNode) : list SourceNode :=
  filter (fun n => src_started n = true) srcs.

(** The part of the state that belongs to the audio session. *)
Definition audio_side (s : State) :=
  (inputContextRef (refs s), outputContextRef (refs s),
   sessionPromiseRef (refs s), scriptProcessorRef (refs s),
   sourceNodeRef (refs s), audioStreamRef (refs s),
   nextStartTimeRef (refs s), sourcesRef (refs s),
   audio_log (env s), sent (env s), isActive (ui s), status (ui s),
   task (ui s), activeWidget (ui s)).

(** What teardown has no business with. *)
Definition records (s : State) :=
  (logs (env s), console (env s), sent (env s), timeouts (env s),
   reminders (env s), tab_changes (env s), task (ui s),
   nextStartTimeRef (refs s), next_id (env s), random_calls (env s)).

(** The send button of the chat does something. *)
Definition sendable (sv : Services) (c : Chat) : Prop :=
  chat_isLoading c = false /\
  (trim sv (input c) <> "" \/ is_Some (selectedImage c)).

(** ** Further sample inputs *)

(** The sample runtime, with a search that answers. *)
Definition answering_runtime : Runtime :=
  {| random := random sample_runtime;
     toString := toString sample_runtime;
     toLowerCase := toLowerCase sample_runtime;
     toFixed2 := toFixed2 sample_runtime;
     generateContent := fun _ => Some ("It is sunny.", []);
     decodeAudioData := decodeAudioData sample_runtime;
     onSetReminder := true;
     onChangeTab := true;
     API_KEY := true |}.

Definition reminder_call : FunctionCall :=
  {| fc_id := "call-4"; fc_name := "set_reminder";
     fc_args := Some (<["message" := JStr "tea"]>
                     (<["delay_seconds" := JNum 60]> ∅)) |}.

Definition bare_reminder_call : FunctionCall :=
  {| fc_id := "call-16"; fc_name := "set_reminder"; fc_args := None |}.

Definition bare_weather_args : gmap string value :=
  <["widget_type" := JStr "weather_card"]> ∅.

Definition bare_weather_call : FunctionCall :=
  {| fc_id := "call-5"; fc_name := "render_widget";
     fc_args := Some bare_weather_args |}.

Definition freezing_data : gmap string value :=
  <["location" := JStr "Oslo"]>
    (<["temp" := JNum 0]> (<["condition" := JStr "Snow"]> ∅)).

Definition freezing_args : gmap string value :=
  <["widget_type" := JStr "weather_card"]>
    (<["data" := JObj freezing_data]> ∅).

Definition freezing_call : FunctionCall :=
  {| fc_id := "call-6"; fc_name := "render_widget";
     fc_args := Some freezing_args |}.

(** A stock chart whose price comes as text. *)
Definition text_price_data : gmap string value :=
  <["symbol" := JStr "ACME"]> (<["price" := JStr "250"]> ∅).

Definition text_price_args : gmap string value :=
  <["widget_type" := JStr "stock_chart"]>
    (<["data" := JObj text_price_data]> ∅).

Definition text_price_call : FunctionCall :=
  {| fc_id := "call-7"; fc_name := "render_widget";
     fc_args := Some text_price_args |}.

Definition place_args : gmap string value := <["location" := JStr "Tokyo"]> ∅.

Definition weather_call : FunctionCall :=
  {| fc_id := "call-8"; fc_name := "get_weather";
     fc_args := Some place_args |}.

Definition tab_args : gmap string value := <["tab_name" := JStr "settings"]> ∅.

Definition tab_call : FunctionCall :=
  {| fc_id := "call-9"; fc_name := "change_tab"; fc_args := Some tab_args |}.

Definition query_args : gmap string value := <["query" := JStr "weather"]> ∅.

Definition search_call : FunctionCall :=
  {| fc_id := "call-10"; fc_name := "search_web";
     fc_args := Some query_args |}.

Definition order_args : gmap string value := <["item" := JStr "pizza"]> ∅.

Definition order_call : FunctionCall :=
  {| fc_id := "call-11"; fc_name := "order_food";
     fc_args := Some order_args |}.


Definition app_args : gmap string value := <["app_name" := JStr "Maps"]> ∅.

Definition open_call : FunctionCall :=
  {| fc_id := "call-12"; fc_name := "open_app"; fc_args := Some app_args |}.

(** An interrupt that also carries a tool call and audio. *)
Definition loaded_interrupt : LiveServerMessage :=
  {| interrupted := true; toolCall := Some (Some [tokyo_call]);
     inlineData := Some "A" |}.

(** A chunk, a chunk that fails to decode, the end of the first source,
    a batch of calls, teardown, and a late chunk. *)
Definition busy_events : list Event :=
  [EvMessage (chunk_message "B") 6000;
   EvMessage (chunk_message "?") 7000;
   EvEnded 6;
   EvMessage (tool_message [order_call; bad_tab_call]) 8000;
   EvMessage (chunk_message "C") 48000;
   EvStop].

(** The source playing in the sample session. *)
Definition playing_source : SourceNode :=
  {| src_id := 6; src_buffer := {| buf_length := 12000 |};
     src_started := true |}.

Definition sample_services : Services :=
  {| api_key := true;
     remote_text := fun _ => None;
     remote_speech := fun text _ =>
       if bool_decide (text = "hello") then Some (Some "A") else Some None;
     trim := fun s => s;
     decode_speech := sample_decode;
     show_number := fun _ => "0" |}.

Definition sample_tts : Tts :=
  {| tts_text := "hello"; selectedVoice := Kore; isPlaying := false;
     tts_isLoading := false; open_contexts := [];
     started_sources := []; alerts := []; tts_console := [];
     tts_next := 0 |}.

Definition sample_chat : Chat :=
  {| messages := []; input := "hi"; chat_isLoading := false; mode := FAST;
     selectedImage := None; chat_console := [] |}.

(** * Properties *)

(** ** Running a sequence *)

Lemma bind_ok {A B : Type} (m : M A) (k : A -> M B) s s' a :
  m s = (s', Ok a) -> (m ≫= k) s = k a s'.
Proof. intros H. unfold mbind, M_bind. rewrite H. reflexivity. Qed.

(** ** Frame reasoning *)

Section Preserves.

Context {B : Type} (f : State -> B).

Lemma preserves_ret {A} (a : A) : preserves f (mret a).
Proof. intros s. reflexivity. Qed.

Lemma preserves_throw {A} (e : exn) : preserves f (@throw A e).
Proof. intros s. reflexivity. Qed.

Lemma preserves_lift {A} (r : Result A) : preserves f (lift r).
Proof. intros s. reflexivity. Qed.

Lemma preserves_gets {A} (g : State -> A) : preserves f (gets g).
Proof. intros s. reflexivity. Qed.

Lemma preserves_modify (g : State -> State) :
  (forall s, f (g s) = f s) -> preserves f (modify g).
Proof. intros H s. apply H. Qed.

Lemma preserves_bind {A C} (m : M A) (k : A -> M C) :
  preserves f m -> (forall a, preserves f (k a)) -> preserves f (m ≫= k).
Proof.
  intros Hm Hk s. unfold mbind, M_bind.
  specialize (Hm s). destruct (m s) as [s' [a|e]]; simpl in *.
  - rewrite Hk. exact Hm.
  - exact Hm.
Qed.

Lemma preserves_try_catch {A} (m : M A) (h : exn -> M A) :
  preserves f m -> (forall e, preserves f (h e)) ->
  preserves f (try_catch m h).
Proof.
  intros Hm Hh s. unfold try_catch.
  specialize (Hm s). destruct (m s) as [s' [a|e]]; simpl in *.
  - exact Hm.
  - rewrite Hh. exact Hm.
Qed.

Lemma preserves_for_each {A} (body : A -> M unit) (l : list A) :
  (forall x, preserves f (body x)) -> preserves f (for_each body l).
Proof.
  intros Hb. induction l as [|x l IH]; simpl.
  - apply preserves_ret.
  - apply preserves_bind; [apply Hb | intros _; exact IH].
Qed.

Lemma preserves_array_from {A} (n : nat) (m : M A) :
  preserves f m -> preserves f (array_from n m).
Proof.
  intros Hm. induction n as [|n IH]; simpl.
  - apply preserves_ret.
  - apply preserves_bind; [exact Hm | intros x].
    apply preserves_bind; [exact IH | intros l]. apply preserves_ret.
Qed.

End Preserves.

Ltac preserve_step :=
  first
    [ apply preserves_bind; [|intros ?]
    | apply preserves_ret
    | apply preserves_throw
    | apply preserves_lift
    | apply preserves_gets
    | apply preserves_modify; intros ?; reflexivity
    | apply preserves_try_catch; [|intros ?]
    | apply preserves_for_each; intros ?
    | apply preserves_array_from
    | match goal with
      | |- preserves _ (if ?b then _ else _) => destruct b
      | |- preserves _ (match ?x with _ => _ end) => destruct x
      | |- preserves _ (let _ := _ in _) => cbv zeta
      end ].

Ltac preserve := repeat preserve_step.

Ltac unfold_tools :=
  unfold dispatch, sendToolResponse, tool_body, render_widget,
    set_reminder, change_tab, get_weather, get_stock_price, search_web,
    order_food, open_app, generateTextResponse, arg, math_random,
    setActiveWidget, setTask, setTimeout, console_error, addLog.

(** ** Tool dispatcher *)

Lemma tool_body_sent rt fc r :
  preserves (fun s => sent (env s)) (tool_body rt fc r).
Proof. unfold_tools. preserve. Qed.

Lemma schedule_sent rt data now :
  preserves (fun s => sent (env s)) (schedule rt data now).
Proof. unfold schedule, fresh. preserve. Qed.

Lemma str_is_ne v lit : v <> JStr lit -> str_is v lit = false.
Proof.
  intros H. destruct v; simpl; try reflexivity.
  apply bool_decide_eq_false_2. congruence.
Qed.

(** One turn of the loop never throws and sends one response. *)
Lemma dispatch_spec rt fc s :
  exists s' payload,
    dispatch rt fc s = (s', Ok tt) /\
    sent (env s') = sent (env s) ++
      [{| fr_id := fc_id fc; fr_name := fc_name fc;
          fr_response := payload |}] /\
    exists s0,
      match outcome (tool_body rt fc (result_obj "ok")) s0 with
      | Ok v => payload = v
      | Throw _ => payload = error_obj "Tool execution failed"
      end.
Proof.
  unfold dispatch, mbind, M_bind, try_catch, outcome. simpl.
  set (s0 := upd_env _ s).
  pose proof (tool_body_sent rt fc (result_obj "ok") s0) as Hs.
  destruct (tool_body rt fc (result_obj "ok") s0) as [s1 [v|e]] eqn:E;
    simpl in *; eexists _, _; (split; [reflexivity|]); split.
  - simpl. rewrite Hs. reflexivity.
  - exists s0. rewrite E. reflexivity.
  - simpl. rewrite Hs. reflexivity.
  - exists s0. rewrite E. reflexivity.
Qed.

Lemma dispatch_all rt calls s :
  exists s' rs,
    for_each (dispatch rt) calls s = (s', Ok tt) /\
    sent (env s') = sent (env s) ++ rs /\
    Forall2 (answers rt) calls rs.
Proof.
  revert s. induction calls as [|fc calls IH]; intros s.
  - exists s, []. simpl. rewrite app_nil_r. repeat split; constructor.
  - destruct (dispatch_spec rt fc s) as (s1 & payload & Hd & Hsent & Hp).
    destruct (IH s1) as (s' & rs & Hr & Hs' & Hall).
    exists s', ({| fr_id := fc_id fc; fr_name := fc_name fc;
                   fr_response := payload |} :: rs).
    split; [|split].
    + simpl. rewrite (bind_ok _ _ _ _ _ Hd). exact Hr.
    + rewrite Hs', Hsent, <- app_assoc. reflexivity.
    + constructor; [|exact Hall]. repeat split; exact Hp.
Qed.

Lemma answers_ids rt calls rs :
  Forall2 (answers rt) calls rs -> map fr_id rs = map fc_id calls.
Proof.
  induction 1 as [|fc r calls rs (Hid & _) _ IH]; simpl; [reflexivity|].
  rewrite Hid, IH. reflexivity.
Qed.

(** Claim C3.  When a message that is not an interrupt carries a batch of
    tool calls, the responses sent while handling it are one per call, in
    the order of the calls: each bears the id and the name of its call,
    and its payload is what the handler returned, or the error payload if
    the handler threw.  A throw in one handler takes nothing away from the
    responses of the other calls. *)
Theorem every_call_answered rt message now s calls :
  interrupted message = false ->
  toolCall message = Some (Some calls) ->
  exists rs,
    sent (env (run (onmessage rt message now) s)) = sent (env s) ++ rs /\
    map fr_id rs = map fc_id calls /\
    Forall2 (answers rt) calls rs.
Proof.
  intros Hi Ht.
  destruct (dispatch_all rt calls s) as (s' & rs & Hr & Hsent & Hall).
  exists rs. split; [|split; [eapply answers_ids; exact Hall | exact Hall]].
  unfold run, onmessage. rewrite Hi, Ht.
  rewrite (bind_ok _ _ _ _ _ Hr).
  destruct (inlineData message) as [d|]; [|exact Hsent].
  destruct (bool_decide (d = "")); [exact Hsent|].
  rewrite (schedule_sent rt d now s'). exact Hsent.
Qed.

Lemma every_call_answered_witness :
  interrupted (tool_message [bad_tab_call; tokyo_call]) = false /\
  toolCall (tool_message [bad_tab_call; tokyo_call]) =
    Some (Some [bad_tab_call; tokyo_call]) /\
  exists rs,
    sent (env (run (onmessage sample_runtime
                      (tool_message [bad_tab_call; tokyo_call]) 0)
                   initial_state)) = sent (env initial_state) ++ rs /\
    map fr_id rs = map fc_id [bad_tab_call; tokyo_call] /\
    Forall2 (answers sample_runtime) [bad_tab_call; tokyo_call] rs.
Proof.
  split; [reflexivity|]. split; [reflexivity|].
  apply (every_call_answered sample_runtime
           (tool_message [bad_tab_call; tokyo_call]) 0 initial_state
           [bad_tab_call; tokyo_call]); reflexivity.
Defined.

(** The batch above, run: the call that throws is answered with the error
    payload and the call after it with its success payload. *)
Example throwing_call_in_batch :
  sent (env (run (onmessage sample_runtime
                    (tool_message [bad_tab_call; tokyo_call]) 0)
                 initial_state)) =
  [{| fr_id := "call-0"; fr_name := "change_tab";
      fr_response := error_obj "Tool execution failed" |};
   {| fr_id := "call-2"; fr_name := "render_widget";
      fr_response := result_obj "Widget rendered successfully." |}].
Proof. reflexivity. Qed.

(** Claim C4, as the program has it.  A call whose name is none of the
    eight declared tools falls through every branch: the dispatcher adds
    its log line and sends a response bearing the call's id and name whose
    payload is the initial [{ result: "ok" }], which is no error payload.
    It changes nothing else and does not throw, and in a batch every call
    around it is answered as well. *)
Theorem unknown_tool_answered_ok rt fc s :
  fc_name fc ∉ declared_tools ->
  dispatch rt fc s =
    (upd_env (with_sent (fun l => l ++
        [{| fr_id := fc_id fc; fr_name := fc_name fc;
            fr_response := result_obj "ok" |}]))
       (upd_env (with_logs (fun l => l ++
          [{| log_message := "Exec: " +:+ fc_name fc;
              log_type := tool |}])) s),
     Ok tt) /\
  is_error_payload (result_obj "ok") = false /\
  (forall before after,
     exists rs,
       sent (env (run (for_each (dispatch rt) (before ++ fc :: after)) s)) =
         sent (env s) ++ rs /\
       Forall2 (answers rt) (before ++ fc :: after) rs).
Proof.
  intros H. unfold declared_tools in H.
  rewrite !not_elem_of_cons in H.
  destruct H as (H1 & H2 & H3 & H4 & H5 & H6 & H7 & H8 & _).
  split; [|split; [reflexivity|]].
  - unfold dispatch, tool_body.
    rewrite !bool_decide_eq_false_2 by assumption.
    reflexivity.
  - intros before after.
    destruct (dispatch_all rt (before ++ fc :: after) s)
      as (s' & rs & Hr & Hsent & Hall).
    exists rs. unfold run. rewrite Hr. split; assumption.
Qed.

Lemma unknown_tool_answered_ok_witness :
  (fc_name foo_bar_call ∉ declared_tools) /\
  dispatch sample_runtime foo_bar_call initial_state =
    (upd_env (with_sent (fun l => l ++
        [{| fr_id := "call-1"; fr_name := "foo_bar";
            fr_response := result_obj "ok" |}]))
       (upd_env (with_logs (fun l => l ++
          [{| log_message := "Exec: foo_bar"; log_type := tool |}]))
          initial_state),
     Ok tt).
Proof.
  assert (H : fc_name foo_bar_call ∉ declared_tools).
  { apply (bool_decide_unpack _). vm_compute. exact I. }
  split; [exact H|].
  apply (unknown_tool_answered_ok sample_runtime foo_bar_call initial_state H).
Defined.

(** The call named "foo_bar" gets no response with an error payload. *)
Lemma foo_bar_gets_no_error :
  ~ exists r,
      r ∈ sent (env (run (onmessage sample_runtime
                            (tool_message [foo_bar_call]) 0)
                         initial_state)) /\
      fr_id r = fc_id foo_bar_call /\
      is_error_payload (fr_response r) = true.
Proof.
  intros (r & Hr & _ & He).
  vm_compute in Hr. apply list_elem_of_singleton in Hr. subst r.
  vm_compute in He. discriminate He.
Qed.

(** Claim C9.  A [render_widget] call with [widget_type] "weather_card"
    and data [{location: "Tokyo", temp: 22, condition: "Clear"}] sets the
    widget to the weather variant with exactly these fields, and the call
    is answered with the success payload. *)
Theorem weather_card_tokyo rt s id now :
  let message :=
    tool_message [{| fc_id := id; fc_name := "render_widget";
                     fc_args := Some tokyo_args |}] in
  let s' := run (onmessage rt message now) s in
  activeWidget (ui s') =
    Some (weather (JStr "Tokyo") (JNum 22) (JStr "Clear")) /\
  sent (env s') = sent (env s) ++
    [{| fr_id := id; fr_name := "render_widget";
        fr_response := result_obj "Widget rendered successfully." |}] /\
  is_error_payload (result_obj "Widget rendered successfully.") = false.
Proof. repeat split; reflexivity. Qed.

(** Claim C10.  A [render_widget] call whose arguments carry a
    [widget_type] that is none of the four discriminators leaves the
    widget as it was and is answered with the success payload
    "Widget rendered successfully.", not with an error. *)
Theorem unsupported_widget_type_succeeds rt fc a s :
  fc_name fc = "render_widget" ->
  fc_args fc = Some a ->
  (field a "widget_type") ∉
    [JStr "weather_card"; JStr "stock_chart"; JStr "map_view";
     JStr "note_pad"] ->
  let s' := run (dispatch rt fc) s in
  activeWidget (ui s') = activeWidget (ui s) /\
  sent (env s') = sent (env s) ++
    [{| fr_id := fc_id fc; fr_name := fc_name fc;
        fr_response := result_obj "Widget rendered successfully." |}] /\
  is_error_payload (result_obj "Widget rendered successfully.") = false.
Proof.
  intros Hn Ha Ht.
  rewrite !not_elem_of_cons in Ht. destruct Ht as (H1 & H2 & H3 & H4 & _).
  unfold run, dispatch, tool_body, render_widget, arg.
  rewrite Hn, Ha. simpl.
  unfold mbind, M_bind, try_catch, mret, M_ret. simpl.
  rewrite (str_is_ne _ _ H1), (str_is_ne _ _ H2), (str_is_ne _ _ H3),
    (str_is_ne _ _ H4).
  simpl. repeat split; reflexivity.
Qed.

Lemma unsupported_widget_type_succeeds_witness :
  fc_name pie_call = "render_widget" /\
  activeWidget (ui (run (dispatch sample_runtime pie_call) initial_state)) =
    None /\
  sent (env (run (dispatch sample_runtime pie_call) initial_state)) =
    [{| fr_id := "call-3"; fr_name := "render_widget";
        fr_response := result_obj "Widget rendered successfully." |}].
Proof.
  assert (Ht : (field (<["widget_type" := JStr "pie_chart"]> ∅)
                      "widget_type") ∉
            [JStr "weather_card"; JStr "stock_chart"; JStr "map_view";
             JStr "note_pad"]).
  { vm_compute. intros H.
    repeat (apply elem_of_cons in H as [H|H]; [discriminate H|]).
    apply elem_of_nil in H. exact H. }
  split; [reflexivity|].
  pose proof (unsupported_widget_type_succeeds sample_runtime pie_call
                (<["widget_type" := JStr "pie_chart"]> ∅) initial_state
                eq_refl eq_refl Ht) as (Hw & Hs & _).
  split; [exact Hw | exact Hs].
Defined.

(** ** Playback scheduler *)

Lemma schedule_decoded rt data now buf s :
  decodeAudioData rt data = Some buf ->
  schedule rt data now s = (scheduled s now buf, Ok tt).
Proof.
  intros H. unfold schedule, mbind, M_bind. simpl. rewrite H. reflexivity.
Qed.

Lemma schedule_failed rt data now s :
  decodeAudioData rt data = None ->
  schedule rt data now s =
    (upd_refs (with_nextStartTimeRef (Z.max (nextStartTimeRef (refs s)) now))
       s,
     Throw Rejected).
Proof.
  intros H. unfold schedule, mbind, M_bind. simpl. rewrite H. reflexivity.
Qed.

Lemma chunk_decoded rt data now buf s :
  data <> "" ->
  decodeAudioData rt data = Some buf ->
  onmessage rt (chunk_message data) now s = (scheduled s now buf, Ok tt).
Proof.
  intros Hd H. unfold onmessage, chunk_message. simpl.
  unfold mbind, M_bind. simpl.
  rewrite bool_decide_eq_false_2 by exact Hd.
  apply schedule_decoded. exact H.
Qed.

Lemma chunk_failed rt data now s :
  data <> "" ->
  decodeAudioData rt data = None ->
  onmessage rt (chunk_message data) now s =
    (upd_refs (with_nextStartTimeRef (Z.max (nextStartTimeRef (refs s)) now))
       s,
     Throw Rejected).
Proof.
  intros Hd H. unfold onmessage, chunk_message. simpl.
  unfold mbind, M_bind. simpl.
  rewrite bool_decide_eq_false_2 by exact Hd.
  apply schedule_failed. exact H.
Qed.

Lemma chained_gapless w arr ss :
  chained w arr ss -> on_time w arr -> gapless arr ss.
Proof.
  revert w ss. induction arr as [|[now d] arr IH]; intros w ss Hc Ho.
  - destruct ss; exact I.
  - destruct ss as [|s0 ss]; [destruct Hc|].
    destruct Hc as [-> Hc]. destruct Ho as [Hn Ho].
    destruct arr as [|[now' d'] arr]; [exact I|].
    destruct ss as [|s1 ss]; [destruct Hc|].
    split.
    + destruct Hc as [-> _]. lia.
    + apply (IH _ _ Hc Ho).
Qed.

Lemma play_chained rt chunks s :
  Forall (decodable rt) chunks ->
  exists evs,
    audio_log (env (run (play rt chunks) s)) = audio_log (env s) ++ evs /\
    outcome (play rt chunks) s = Ok tt /\
    chained (nextStartTimeRef (refs s)) (arrivals rt chunks) (starts evs).
Proof.
  intros H. revert s.
  induction H as [|[data now] chunks [Hd [buf Hb]] _ IH]; intros s.
  - exists []. simpl. rewrite app_nil_r. auto.
  - simpl in Hd, Hb.
    destruct (IH (scheduled s now buf)) as (evs & Hlog & Hout & Hch).
    exists (AStart (next_id (env s)) (Z.max (nextStartTimeRef (refs s)) now)
                   (duration buf) :: evs).
    unfold run, outcome, play in *. simpl.
    rewrite (bind_ok _ _ _ _ _ (chunk_decoded rt data now buf s Hd Hb)).
    split; [|split].
    + rewrite Hlog. simpl. rewrite <- app_assoc. reflexivity.
    + exact Hout.
    + simpl. rewrite Hb. simpl. split; [reflexivity|]. exact Hch.
Qed.

(** Claim C1, as the program has it.  A chunk that decodes to a buffer of
    duration [d] is started at [start = max (watermark, now)], the
    watermark becomes [start + d], and the source joins the live set, which
    it leaves when it ends.  For chunks handled one after the other with no
    interrupt between them, the first start is [max (watermark0, now1)] and
    every later start is the larger of the end of the chunk before it and
    the clock reading of its own handler; the starts are back to back,
    [s_(i+1) = s_i + d_i], when no chunk is handled after the end of the
    chunk before it. *)
Theorem scheduler_chains_chunks rt s data now buf chunks :
  data <> "" ->
  decodeAudioData rt data = Some buf ->
  Forall (decodable rt) chunks ->
  (let start := Z.max (nextStartTimeRef (refs s)) now in
   let id := next_id (env s) in
   let s' := run (onmessage rt (chunk_message data) now) s in
   audio_log (env s') =
     audio_log (env s) ++ [AStart id start (duration buf)] /\
   nextStartTimeRef (refs s') = start + duration buf /\
   sourcesRef (refs s') =
     sourcesRef (refs s) ++
     [{| src_id := id; src_buffer := buf; src_started := true |}] /\
   sourcesRef (refs (run (on_ended id) s')) =
     filter (fun n => src_id n <> id) (sourcesRef (refs s))) /\
  (exists evs,
     audio_log (env (run (play rt chunks) s)) = audio_log (env s) ++ evs /\
     chained (nextStartTimeRef (refs s)) (arrivals rt chunks) (starts evs) /\
     (on_time (nextStartTimeRef (refs s)) (arrivals rt chunks) ->
      gapless (arrivals rt chunks) (starts evs))).
Proof.
  intros Hd Hb H. split.
  - intros start id s'. subst s'. unfold run.
    rewrite (chunk_decoded rt data now buf s Hd Hb). simpl.
    repeat split.
    rewrite filter_app, filter_cons_False, filter_nil, app_nil_r.
    + reflexivity.
    + simpl. intros Hne. apply Hne. reflexivity.
  - destruct (play_chained rt chunks s H) as (evs & Hlog & _ & Hch).
    exists evs. repeat split; [exact Hlog | exact Hch |].
    intros Ho. eapply chained_gapless; eassumption.
Qed.

Lemma scheduler_chains_chunks_witness :
  "A" <> "" /\
  decodeAudioData sample_runtime "A" = Some {| buf_length := 12000 |} /\
  Forall (decodable sample_runtime) three_chunks /\
  exists evs,
    audio_log (env (run (play sample_runtime three_chunks) initial_state)) =
      audio_log (env initial_state) ++ evs /\
    chained 0 (arrivals sample_runtime three_chunks) (starts evs).
Proof.
  assert (Hd : "A" <> "") by discriminate.
  assert (Hc : Forall (decodable sample_runtime) three_chunks).
  { repeat constructor; simpl; try discriminate; vm_compute; eauto. }
  split; [exact Hd|]. split; [reflexivity|]. split; [exact Hc|].
  destruct (scheduler_chains_chunks sample_runtime initial_state "A" 0
              {| buf_length := 12000 |} three_chunks Hd eq_refl Hc)
    as (_ & evs & Hlog & Hch & _).
  exists evs. split; [exact Hlog | exact Hch].
Defined.

(** Three chunks of 0.50 s, 0.30 s and 0.20 s handled back to back at
    clock 0 start at 0, 0.50 s and 0.80 s. *)
Example three_chunks_starts :
  starts (audio_log (env (run (play sample_runtime three_chunks)
                              initial_state))) = [0; 12000; 19200].
Proof. reflexivity. Qed.

(** A second chunk handled after the first has ended does not start at the
    end of the first. *)
Lemma late_chunk_leaves_gap :
  ~ gapless (arrivals sample_runtime late_chunks)
      (starts (audio_log (env (run (play sample_runtime late_chunks)
                                   initial_state)))).
Proof. vm_compute. intros [H _]. discriminate H. Qed.

(** ** Interruption handler *)

Lemma upd_audio_log_nil s :
  upd_env (with_audio_log (fun l => l ++ [])) s = s.
Proof.
  destruct s as [u r [a al lg c se t tc rm rc ni]].
  unfold upd_env, with_audio_log. simpl. rewrite app_nil_r. reflexivity.
Qed.

Lemma upd_audio_log_app s l1 l2 :
  upd_env (with_audio_log (fun l => l ++ l2))
    (upd_env (with_audio_log (fun l => l ++ l1)) s) =
  upd_env (with_audio_log (fun l => l ++ l1 ++ l2)) s.
Proof.
  unfold upd_env, with_audio_log. simpl. rewrite <- app_assoc. reflexivity.
Qed.

Lemma stop_all_caught srcs s :
  Forall (fun n => src_started n = true) srcs ->
  for_each (fun n => try_catch (stop_source n) (fun _ => mret tt)) srcs s =
    (upd_env (with_audio_log (fun l => l ++ stops srcs)) s, Ok tt).
Proof.
  intros H. revert s. induction H as [|n srcs Hn _ IH]; intros s.
  - simpl. rewrite upd_audio_log_nil. reflexivity.
  - simpl. unfold mbind, M_bind, try_catch, stop_source. rewrite Hn. simpl.
    rewrite IH. rewrite upd_audio_log_app. reflexivity.
Qed.

Lemma stop_all srcs s :
  Forall (fun n => src_started n = true) srcs ->
  for_each stop_source srcs s =
    (upd_env (with_audio_log (fun l => l ++ stops srcs)) s, Ok tt).
Proof.
  intros H. revert s. induction H as [|n srcs Hn _ IH]; intros s.
  - simpl. rewrite upd_audio_log_nil. reflexivity.
  - simpl. unfold mbind, M_bind, stop_source. rewrite Hn. simpl.
    rewrite IH. rewrite upd_audio_log_app. reflexivity.
Qed.

Lemma interrupt_spec now s :
  live_started s ->
  interrupt now s = (interrupted_state s now, Ok tt).
Proof.
  intros H. unfold interrupt, mbind, M_bind. simpl.
  rewrite stop_all_caught by exact H. reflexivity.
Qed.

Lemma or_zero_now now : or_zero (Some now) = now.
Proof. unfold or_zero. destruct (Z.eqb_spec now 0); congruence. Qed.

(** Claim C2, as the program has it.  Right after an interrupt every
    source that was in the live set has been stopped and the live set is
    empty.  The watermark is the current output clock time while the
    output context is still referenced, and 0 once teardown has released
    it.  In both cases a chunk scheduled next, at a clock reading not
    before the interrupt, starts no earlier than the clock time of the
    interrupt. *)
Theorem interrupt_flushes_playback rt message now s :
  interrupted message = true ->
  live_started s ->
  let s' := run (onmessage rt message now) s in
  outcome (onmessage rt message now) s = Ok tt /\
  (forall n, n ∈ sourcesRef (refs s) ->
             AStop (src_id n) ∈ audio_log (env s')) /\
  sourcesRef (refs s') = [] /\
  nextStartTimeRef (refs s') =
    match outputContextRef (refs s) with Some _ => now | None => 0 end /\
  (forall data now' buf,
     now <= now' ->
     data <> "" ->
     decodeAudioData rt data = Some buf ->
     exists id start,
       audio_log (env (run (onmessage rt (chunk_message data) now') s')) =
         audio_log (env s') ++ [AStart id start (duration buf)] /\
       now <= start).
Proof.
  intros Hi Hl s'. subst s'. unfold run, outcome, onmessage. rewrite Hi.
  rewrite (interrupt_spec now s Hl). cbn [fst snd].
  split; [reflexivity|]. split; [|split; [reflexivity|split]].
  - intros n Hn. simpl. apply elem_of_app. right.
    apply (list_elem_of_fmap_2 (fun n => AStop (src_id n))). exact Hn.
  - simpl. destruct (outputContextRef (refs s));
      [apply or_zero_now | reflexivity].
  - intros data now' buf Hle Hd Hb.
    rewrite (chunk_decoded rt data now' buf _ Hd Hb). simpl.
    eexists _, _. split; [reflexivity|]. lia.
Qed.

Lemma interrupt_flushes_playback_witness :
  interrupted interrupt_message = true /\
  live_started live_session /\
  sourcesRef (refs (run (onmessage sample_runtime interrupt_message 6000)
                        live_session)) = [] /\
  nextStartTimeRef (refs (run (onmessage sample_runtime interrupt_message 6000)
                              live_session)) = 6000.
Proof.
  assert (Hl : live_started live_session).
  { unfold live_started. vm_compute. repeat constructor. }
  split; [reflexivity|]. split; [exact Hl|].
  destruct (interrupt_flushes_playback sample_runtime interrupt_message 6000
              live_session eq_refl Hl) as (_ & _ & He & Hw & _).
  split; [exact He | exact Hw].
Defined.

(** An interrupt delivered after [stopSession], at clock time 2 s, leaves
    the watermark at 0. *)
Lemma interrupt_after_stop_resets_to_zero :
  nextStartTimeRef
    (refs (run (onmessage sample_runtime interrupt_message 48000)
               stopped_session)) <> 48000.
Proof. vm_compute. discriminate. Qed.

(** ** Watermark *)

Lemma dispatch_watermark rt fc :
  preserves (fun s => nextStartTimeRef (refs s)) (dispatch rt fc).
Proof. unfold_tools. preserve. Qed.

Lemma schedule_watermark rt data now s :
  nextStartTimeRef (refs s) <=
  nextStartTimeRef (refs (run (schedule rt data now) s)).
Proof.
  unfold run. destruct (decodeAudioData rt data) as [buf|] eqn:E.
  - rewrite (schedule_decoded rt data now buf s E). simpl.
    unfold duration. lia.
  - rewrite (schedule_failed rt data now s E). simpl. lia.
Qed.

Lemma tool_calls_preserve {B : Type} (f : State -> B) rt
    (o : option (option (list FunctionCall))) :
  (forall fc, preserves f (dispatch rt fc)) ->
  preserves f (match o with
               | Some (Some functionCalls) =>
                   for_each (dispatch rt) functionCalls
               | Some None => throw TypeError
               | None => mret tt
               end).
Proof.
  intros H. destruct o as [[calls|]|].
  - apply preserves_for_each. exact H.
  - apply preserves_throw.
  - apply preserves_ret.
Qed.

Lemma quiet_events_preserve_watermark rt ev :
  match ev with EvMessage _ _ => False | _ => True end ->
  preserves (fun s => nextStartTimeRef (refs s)) (handle rt ev).
Proof.
  destruct ev; simpl; intros H; try destruct H;
    unfold on_ended, run_timer, onopen, onclose, onerror, startVideo,
      stopVideo, handlePayment, stopSession, cleanupVideo, cleanupAudio,
      stop_source, getUserMedia, release, acquire, fresh, updateTask, setTask,
      setStatus, setIsActive, setIsCameraActive, setVolume, setActiveWidget,
      setTimeout, console_error, addLog;
    preserve.
Qed.

(** Claim C6.  Whatever happens in a running session other than an
    interrupt (a message with tool calls or audio, the end of a source, a
    timeout, a channel callback, a camera or payment button, teardown)
    leaves the watermark where it was or moves it forward; the scheduling
    step in particular never moves it back. *)
Theorem watermark_monotone rt ev s :
  is_interrupt ev = false ->
  nextStartTimeRef (refs s) <=
  nextStartTimeRef (refs (run (handle rt ev) s)).
Proof.
  intros H. destruct ev as [message now| | | | | | | | |];
    try (apply Z.eq_le_incl; symmetry;
         apply (quiet_events_preserve_watermark rt); exact I).
  simpl in *. unfold run, onmessage. rewrite H.
  unfold mbind at 1, M_bind at 1.
  pose proof (tool_calls_preserve (fun s => nextStartTimeRef (refs s)) rt
                (toolCall message) (dispatch_watermark rt) s) as Hd.
  destruct (match toolCall message with
            | Some (Some functionCalls) =>
                for_each (dispatch rt) functionCalls
            | Some None => throw TypeError
            | None => mret tt
            end s) as [s1 [[]|e]]; simpl in Hd.
  - destruct (inlineData message) as [d|]; [|simpl; lia].
    destruct (bool_decide (d = "")); [simpl; lia|].
    rewrite <- Hd. apply schedule_watermark.
  - simpl. lia.
Qed.

Lemma watermark_monotone_witness :
  is_interrupt (EvMessage (chunk_message "B") 6000) = false /\
  nextStartTimeRef (refs live_session) <=
  nextStartTimeRef
    (refs (run (handle sample_runtime (EvMessage (chunk_message "B") 6000))
               live_session)).
Proof.
  split; [reflexivity|].
  apply (watermark_monotone sample_runtime
           (EvMessage (chunk_message "B") 6000) live_session).
  reflexivity.
Defined.

(** ** Decode failure *)

(** Claim C8, as the program has it.  When a chunk fails to decode, the
    handler ends with the rejection: nothing is started, the live set is
    as before, and the only thing written is the watermark, raised to
    [max (watermark, now)]; nothing is written to the diagnostic log or to
    the console.  The next chunk that decodes is handled normally and
    scheduled from that watermark. *)
Theorem decode_failure_drops_chunk rt data now s :
  data <> "" ->
  decodeAudioData rt data = None ->
  let s' := run (onmessage rt (chunk_message data) now) s in
  outcome (onmessage rt (chunk_message data) now) s = Throw Rejected /\
  s' = upd_refs (with_nextStartTimeRef
                   (Z.max (nextStartTimeRef (refs s)) now)) s /\
  audio_log (env s') = audio_log (env s) /\
  sourcesRef (refs s') = sourcesRef (refs s) /\
  ~ failure_logged s s' /\
  (forall data' now' buf,
     data' <> "" ->
     decodeAudioData rt data' = Some buf ->
     outcome (onmessage rt (chunk_message data') now') s' = Ok tt /\
     audio_log (env (run (onmessage rt (chunk_message data') now') s')) =
       audio_log (env s) ++
       [AStart (next_id (env s))
               (Z.max (Z.max (nextStartTimeRef (refs s)) now) now')
               (duration buf)]).
Proof.
  intros Hd Hn s'. subst s'. unfold run, outcome.
  rewrite (chunk_failed rt data now s Hd Hn). cbn [fst snd].
  split; [reflexivity|]. split; [reflexivity|]. split; [reflexivity|].
  split; [reflexivity|]. split.
  - unfold failure_logged. simpl. intros [H|H]; apply H; reflexivity.
  - intros data' now' buf Hd' Hb.
    rewrite (chunk_decoded rt data' now' buf _ Hd' Hb). simpl.
    split; reflexivity.
Qed.

Lemma decode_failure_drops_chunk_witness :
  "?" <> "" /\
  decodeAudioData sample_runtime "?" = None /\
  audio_log (env (run (onmessage sample_runtime (chunk_message "?") 24000)
                      live_session)) = audio_log (env live_session) /\
  ~ failure_logged live_session
      (run (onmessage sample_runtime (chunk_message "?") 24000) live_session).
Proof.
  assert (Hd : "?" <> "") by discriminate.
  split; [exact Hd|]. split; [reflexivity|].
  destruct (decode_failure_drops_chunk sample_runtime "?" 24000 live_session
              Hd eq_refl) as (_ & _ & Ha & _ & Hl & _).
  split; [exact Ha | exact Hl].
Defined.

(** A chunk that fails to decode in a live session leaves the diagnostic
    log and the console as they were. *)
Lemma decode_failure_not_logged :
  ~ failure_logged live_session
      (run (onmessage sample_runtime (chunk_message "?") 24000) live_session).
Proof. intros [H|H]; apply H; vm_compute; reflexivity. Qed.

(** ** Teardown *)

Lemma cleanupAudio_spec s :
  live_started s ->
  exists s',
    cleanupAudio s = (s', Ok tt) /\
    ui s' = ui s /\
    refs s' = released_refs (refs s) /\
    audio_log (env s') = audio_log (env s) ++ stops (sourcesRef (refs s)) /\
    logs (env s') = logs (env s) /\
    console (env s') = console (env s) /\
    (forall x, x ∈ acquired (env s') <->
               x ∈ acquired (env s) /\
               x ∉ option_list (AudioNode <$> scriptProcessorRef (refs s)) ++
                   option_list (AudioNode <$> sourceNodeRef (refs s)) ++
                   option_list (Tracks <$> audioStreamRef (refs s)) ++
                   option_list (Context <$> inputContextRef (refs s)) ++
                   option_list (Context <$> outputContextRef (refs s)) ++
                   option_list (Channel <$> sessionPromiseRef (refs s))).
Proof.
  intros H. unfold cleanupAudio, mbind at 1, M_bind at 1. simpl.
  unfold mbind at 1, M_bind at 1. rewrite (stop_all _ _ H).
  destruct s as [u [ic oc sp proc sn ast ns srcs vs fi] p].
  destruct ic, oc, sp, proc, sn, ast; simpl;
    (eexists; split; [reflexivity|]);
    (split; [reflexivity|]); (split; [reflexivity|]);
    (split; [reflexivity|]); (split; [reflexivity|]);
    (split; [reflexivity|]);
    intros x; simpl; rewrite ?list_elem_of_filter, ?not_elem_of_cons;
    pose proof (not_elem_of_nil x); tauto.
Qed.

Lemma cleanupVideo_spec s :
  exists s',
    cleanupVideo s = (s', Ok tt) /\
    ui s' = ui s /\
    refs s' = with_videoStreamRef None (with_frameIntervalRef None (refs s)) /\
    audio_log (env s') = audio_log (env s) /\
    (forall x, x ∈ acquired (env s') <->
               x ∈ acquired (env s) /\
               x ∉ option_list (Interval <$> frameIntervalRef (refs s)) ++
                   option_list (Tracks <$> videoStreamRef (refs s))).
Proof.
  unfold cleanupVideo, mbind, M_bind.
  destruct s as [u [ic oc sp proc sn ast ns srcs vs fi] p].
  destruct fi, vs; simpl;
    (eexists; split; [reflexivity|]);
    (split; [reflexivity|]); (split; [reflexivity|]);
    (split; [reflexivity|]);
    intros x; simpl; rewrite ?list_elem_of_filter, ?not_elem_of_cons;
    pose proof (not_elem_of_nil x); tauto.
Qed.

Lemma stopSession_spec s :
  live_started s ->
  exists s',
    stopSession s = (s', Ok tt) /\
    ui s' = stopped_ui (ui s) /\
    refs s' = stopped_refs (refs s) /\
    audio_log (env s') = audio_log (env s) ++ stops (sourcesRef (refs s)) /\
    (forall x, x ∈ acquired (env s') <->
               x ∈ acquired (env s) /\ x ∉ held (refs s)).
Proof.
  intros H.
  destruct (cleanupVideo_spec (upd_ui (with_isActive false) s))
    as (s2 & Hv & Hu2 & Hr2 & Hl2 & Ha2).
  destruct (cleanupAudio_spec (upd_ui (with_isCameraActive false) s2))
    as (s4 & Hc & Hu4 & Hr4 & Hl4 & _ & _ & Ha4).
  { unfold live_started. simpl. rewrite Hr2. exact H. }
  eexists. split.
  - unfold stopSession, stopVideo, setIsActive.
    rewrite (bind_ok (modify _) _ s _ tt eq_refl).
    rewrite (bind_ok (cleanupVideo ≫= _) _ _ _ tt
               (bind_ok cleanupVideo _ _ _ tt Hv)).
    rewrite (bind_ok cleanupAudio _ _ _ tt Hc).
    reflexivity.
  - simpl in *. rewrite Hu4, Hr4, Hl4, Hr2, Hl2. simpl. rewrite Hu2. simpl.
    split; [reflexivity|]. split; [reflexivity|]. split; [reflexivity|].
    intros x. rewrite Ha4. simpl. rewrite Hr2, Ha2. simpl.
    unfold held. rewrite !not_elem_of_app. tauto.
Qed.


(** ** Start without a microphone *)

(** Claim C5, as the program has it.  When the microphone cannot be
    acquired during [startSession] (with the API key present and every live
    source started), the start fails as a whole: the status becomes
    "INITIALIZATION FAILED", the session is marked inactive, the audio
    contexts just created are released and the audio refs cleared, and no
    channel is opened.  The only log line is the one written before the
    attempt; nothing names the microphone. *)
Theorem mic_failure_fails_start rt now s :
  API_KEY rt = true ->
  live_started s ->
  let s' := run (startSession rt false now) s in
  outcome (startSession rt false now) s = Ok tt /\
  status (ui s') = "INITIALIZATION FAILED" /\
  isActive (ui s') = false /\
  refs s' = released_refs (with_nextStartTimeRef now (refs s)) /\
  logs (env s') = logs (env s) ++
    [{| log_message := "Initializing Audio Context...";
        log_type := info |}] /\
  console (env s') = console (env s) /\
  (forall x, x ∈ acquired (env s') -> x ∈ acquired (env s)) /\
  ~ continues_without_capture s'.
Proof.
  intros Hk Hl s'. subst s'. unfold run, outcome, startSession.
  rewrite Hk. simpl. unfold try_catch, mbind, M_bind. simpl.
  match goal with
  | |- context [cleanupAudio ?st] =>
      destruct (cleanupAudio_spec st Hl)
        as (s' & Hc & Hu & Hr & _ & Hlg & Hco & Ha);
      rewrite Hc
  end.
  cbn [fst snd]. simpl in Hu, Hr, Hlg, Hco, Ha.
  rewrite Hu, Hr, Hlg, Hco. simpl.
  split; [reflexivity|]. split; [reflexivity|]. split; [reflexivity|].
  split; [reflexivity|]. split; [reflexivity|]. split; [reflexivity|].
  split.
  - intros x Hx. apply Ha in Hx. destruct Hx as [Hx Hn].
    rewrite !elem_of_app in Hx. rewrite !not_elem_of_app in Hn.
    destruct Hx as [[Hx|Hx]|Hx]; [exact Hx | |].
    + apply list_elem_of_singleton in Hx. subst x.
      destruct Hn as (_ & _ & _ & Hn). exfalso. apply Hn. left.
    + apply list_elem_of_singleton in Hx. subst x.
      destruct Hn as (_ & _ & _ & Hn). exfalso. apply Hn. right. left.
  - unfold continues_without_capture. rewrite Hu. simpl.
    intros [Hf _]. discriminate.
Qed.

Lemma mic_failure_fails_start_witness :
  API_KEY sample_runtime = true /\
  live_started initial_state /\
  status (ui (run (startSession sample_runtime false 0) initial_state)) =
    "INITIALIZATION FAILED" /\
  isActive (ui (run (startSession sample_runtime false 0) initial_state)) =
    false.
Proof.
  assert (Hl : live_started initial_state) by constructor.
  split; [reflexivity|]. split; [exact Hl|].
  destruct (mic_failure_fails_start sample_runtime 0 initial_state
              eq_refl Hl) as (_ & Hs & Hi & _).
  split; [exact Hs | exact Hi].
Defined.

(** With the microphone denied, the session does not go on. *)
Lemma mic_denied_ends_session :
  ~ continues_without_capture
      (run (startSession sample_runtime false 0) initial_state).
Proof. intros [H _]. vm_compute in H. discriminate H. Qed.

(** ** The live set holds started sources only *)

Lemma dispatch_sources rt fc :
  preserves (fun s => sourcesRef (refs s)) (dispatch rt fc).
Proof. unfold_tools. preserve. Qed.

Lemma live_started_preserved {A} (m : M A) s :
  preserves (fun s => sourcesRef (refs s)) m ->
  live_started s -> live_started (run m s).
Proof. intros Hp H. unfold live_started, run. rewrite Hp. exact H. Qed.


Lemma live_started_schedule rt data now s :
  live_started s -> live_started (run (schedule rt data now) s).
Proof.
  intros H. unfold run. destruct (decodeAudioData rt data) as [buf|] eqn:E.
  - rewrite (schedule_decoded rt data now buf s E). unfold live_started. simpl.
    apply Forall_app. split; [exact H|]. repeat constructor.
  - rewrite (schedule_failed rt data now s E). exact H.
Qed.

(** Every event of a session keeps the live set made of started sources. *)
Lemma live_started_handle rt ev s :
  live_started s -> live_started (run (handle rt ev) s).
Proof.
  intros H. destruct ev as [message now|id|a| | | |granted| | |]; simpl.
  - unfold run, onmessage. destruct (interrupted message).
    + rewrite (interrupt_spec now s H). constructor.
    + unfold mbind at 1, M_bind at 1.
      pose proof (tool_calls_preserve (fun s => sourcesRef (refs s)) rt
                    (toolCall message) (dispatch_sources rt)) as Hd.
      apply (live_started_preserved _ s Hd) in H. unfold run in H.
      destruct (match toolCall message with
                | Some (Some functionCalls) =>
                    for_each (dispatch rt) functionCalls
                | Some None => throw TypeError
                | None => mret tt
                end s) as [s1 [[]|e]]; simpl in H; [|exact H].
      destruct (inlineData message) as [d|]; [|exact H].
      destruct (bool_decide (d = "")); [exact H|].
      apply live_started_schedule. exact H.
  - unfold live_started, run, on_ended. simpl.
    apply Forall_forall. intros n Hn. apply list_elem_of_filter in Hn.
    destruct Hn as [_ Hn]. revert n Hn. apply Forall_forall. exact H.
  - apply live_started_preserved; [|exact H].
    unfold run_timer, updateTask, setTask. preserve.
  - apply live_started_preserved; [|exact H].
    unfold onopen, setStatus, addLog, fresh, acquire. preserve.
  - apply live_started_preserved; [|exact H].
    unfold onclose, setStatus, setIsActive. preserve.
  - apply live_started_preserved; [|exact H].
    unfold onerror, setStatus, addLog, setIsActive. preserve.
  - apply live_started_preserved; [|exact H].
    unfold startVideo, getUserMedia, setIsCameraActive, console_error, addLog,
      fresh, acquire. preserve.
  - apply live_started_preserved; [|exact H].
    unfold stopVideo, cleanupVideo, release, setIsCameraActive. preserve.
  - apply live_started_preserved; [|exact H].
    unfold handlePayment, run_timer, updateTask, addLog, setTimeout. preserve.
  - destruct (stopSession_spec s H) as (s' & Heq & _ & Hr & _).
    unfold live_started, run. rewrite Heq. simpl. rewrite Hr. constructor.
Qed.


(** ** Session start *)

(** A start that gets the microphone initialises the watermark to the
    clock of the output context it creates, holds both contexts, the
    microphone stream and the channel, and leaves the session active. *)
Lemma startSession_granted rt now s :
  API_KEY rt = true ->
  let s' := run (startSession rt true now) s in
  outcome (startSession rt true now) s = Ok tt /\
  nextStartTimeRef (refs s') = now /\
  isActive (ui s') = true /\
  status (ui s') = "ESTABLISHING UPLINK..." /\
  held (refs s') =
    option_list (AudioNode <$> scriptProcessorRef (refs s)) ++
    option_list (AudioNode <$> sourceNodeRef (refs s)) ++
    [Tracks (S (S (next_id (env s)))); Context (next_id (env s));
     Context (S (next_id (env s))); Channel (S (S (S (next_id (env s)))))] ++
    option_list (Interval <$> frameIntervalRef (refs s)) ++
    option_list (Tracks <$> videoStreamRef (refs s)).
Proof.
  intros Hk s'. subst s'. unfold run, outcome, startSession.
  rewrite Hk. repeat split.
Qed.

(** ** Teardown of a component used in order *)














(** * Further properties *)

(** Property X10.  Handling a batch of tool calls changes no ref, acquires
    and releases nothing, and starts or stops no source. *)
Theorem tool_calls_leave_audio_alone rt calls s :
  let s' := run (for_each (dispatch rt) calls) s in
  refs s' = refs s /\
  acquired (env s') = acquired (env s) /\
  audio_log (env s') = audio_log (env s) /\
  next_id (env s') = next_id (env s).
Proof.
  unfold run. repeat split.
  - revert s. change (preserves refs (for_each (dispatch rt) calls)).
    apply preserves_for_each. intros fc. unfold_tools. preserve.
  - revert s. change (preserves (fun s => acquired (env s)) (for_each (dispatch rt) calls)).
    apply preserves_for_each. intros fc. unfold_tools. preserve.
  - revert s. change (preserves (fun s => audio_log (env s)) (for_each (dispatch rt) calls)).
    apply preserves_for_each. intros fc. unfold_tools. preserve.
  - revert s. change (preserves (fun s => next_id (env s)) (for_each (dispatch rt) calls)).
    apply preserves_for_each. intros fc. unfold_tools. preserve.
Qed.

(** Property X12.  Without the [onSetReminder] prop, [set_reminder]
    answers "Reminder set." and writes nothing but the log line and the
    response, even when the call has no arguments.  With the prop, a call
    that has arguments hands over its message and its delay and is
    answered "Reminder set."; a call that has none throws on the first
    read, sets no reminder and is answered with the error payload. *)
Theorem reminder_set_unless_callback_lacks_args rt fc s :
  fc_name fc = "set_reminder" ->
  let s' := run (dispatch rt fc) s in
  (onSetReminder rt = false ->
   s' = upd_env (with_sent (fun l => l ++ [response fc (result_obj "Reminder set.")]))
          (upd_env (with_logs (fun l => l ++ [exec_line fc])) s)) /\
  (onSetReminder rt = true ->
   forall a, fc_args fc = Some a ->
     reminders (env s') =
       reminders (env s) ++ [(field a "message", field a "delay_seconds")] /\
     sent (env s') =
       sent (env s) ++ [response fc (result_obj "Reminder set.")]) /\
  (onSetReminder rt = true ->
   fc_args fc = None ->
   reminders (env s') = reminders (env s) /\
   sent (env s') =
     sent (env s) ++ [response fc (error_obj "Tool execution failed")] /\
   console (env s') = console (env s) ++ ["TypeError"]).
Proof.
  intros Hn s'. subst s'.
  unfold run, dispatch, tool_body, set_reminder, response, exec_line.
  rewrite Hn. simpl. split; [|split].
  - intros Hp. rewrite Hp. reflexivity.
  - intros Hp a Ha. rewrite Hp. unfold arg. rewrite Ha. split; reflexivity.
  - intros Hp Ha. rewrite Hp. unfold arg. rewrite Ha.
    split; [|split]; reflexivity.
Qed.

(** Property X11.  Any declared tool other than [set_reminder], called
    without an arguments object, is answered with the error payload; the
    React state, the timeouts and the tab are untouched and the exception
    is written to the console. *)
Theorem declared_tool_without_args_fails rt fc s :
  fc_args fc = None ->
  fc_name fc ∈ needs_args ->
  let s' := run (dispatch rt fc) s in
  sent (env s') =
    sent (env s) ++ [response fc (error_obj "Tool execution failed")] /\
  console (env s') = console (env s) ++ ["TypeError"] /\
  ui s' = ui s /\
  timeouts (env s') = timeouts (env s) /\
  tab_changes (env s') = tab_changes (env s).
Proof.
  intros Ha Hn s'. subst s'. destruct fc as [id name args]. simpl in *.
  subst args. unfold needs_args in Hn.
  repeat (apply elem_of_cons in Hn as [->|Hn]; [repeat split|]).
  apply elem_of_nil in Hn. destruct Hn.
Qed.

(** Property X15.  A [render_widget] call for one of the four widget
    types whose [data] is missing or null is answered with the error
    payload; the widget is unchanged and no "Rendering UI" line is
    logged. *)
Theorem supported_widget_without_data_fails rt fc a s :
  fc_name fc = "render_widget" ->
  fc_args fc = Some a ->
  (field a "widget_type") ∈ widget_types ->
  (field a "data") ∈ [JUndefined; JNull] ->
  let s' := run (dispatch rt fc) s in
  sent (env s') =
    sent (env s) ++ [response fc (error_obj "Tool execution failed")] /\
  activeWidget (ui s') = activeWidget (ui s) /\
  logs (env s') = logs (env s) ++ [exec_line fc] /\
  console (env s') = console (env s) ++ ["TypeError"].
Proof.
  intros Hn Ha Ht Hd s'. subst s'.
  unfold run, dispatch, tool_body, render_widget, arg, response, exec_line.
  rewrite Hn, Ha. simpl.
  unfold mbind, M_bind, try_catch, mret, M_ret. simpl.
  unfold widget_types in Ht.
  repeat (apply elem_of_cons in Ht as [->|Ht];
          [repeat (apply elem_of_cons in Hd as [->|Hd]; [repeat split|]);
           apply elem_of_nil in Hd; destruct Hd|]).
  apply elem_of_nil in Ht. destruct Ht.
Qed.

Lemma truthy_zero q : (q == 0)%Q -> truthy (JNum q) = false.
Proof.
  intros H. simpl. apply Qeq_bool_iff in H. rewrite H. reflexivity.
Qed.

Lemma truthy_nonzero q : ~ (q == 0)%Q -> truthy (JNum q) = true.
Proof.
  intros H. simpl. destruct (Qeq_bool q 0) eqn:E; [|reflexivity].
  apply Qeq_bool_iff in E. contradiction.
Qed.

(** Property X16.  A weather card whose temperature is 0 is rendered with
    the default temperature 22: the falsy 0 is taken for a missing
    value. *)
Theorem zero_temperature_shown_as_default rt fc a d t s :
  fc_name fc = "render_widget" ->
  fc_args fc = Some a ->
  field a "widget_type" = JStr "weather_card" ->
  field a "data" = JObj d ->
  field d "temp" = JNum t ->
  (t == 0)%Q ->
  let s' := run (dispatch rt fc) s in
  activeWidget (ui s') =
    Some (weather (js_or (field d "location") (JStr "Unknown"))
                  (JNum 22)
                  (js_or (field d "condition") (JStr "Sunny"))) /\
  sent (env s') =
    sent (env s) ++ [response fc (result_obj "Widget rendered successfully.")].
Proof.
  intros Hn Ha Ht Hd Htemp Hz s'. subst s'.
  unfold run, dispatch, tool_body, render_widget, arg, response.
  rewrite Hn, Ha. simpl.
  unfold mbind, M_bind, try_catch, mret, M_ret. simpl.
  rewrite Ht, Hd. simpl. rewrite Htemp.
  unfold js_or at 2. rewrite (truthy_zero t Hz).
  split; reflexivity.
Qed.

(** Property X17.  A stock chart is drawn around the price it shows: with
    [data.price || 100] as the base, the widget shows the base and a
    history of exactly ten entries, the i-th being the base plus
    [Math.random() * 10 - 5] for the i-th of ten draws in a row.  A price
    that comes as a non-empty text is therefore shown with ten texts that
    start with it, not with numbers. *)
Theorem stock_history_follows_price rt fc a d s :
  fc_name fc = "render_widget" ->
  fc_args fc = Some a ->
  field a "widget_type" = JStr "stock_chart" ->
  field a "data" = JObj d ->
  let base := js_or (field d "price") (JNum 100) in
  let s' := run (dispatch rt fc) s in
  exists history,
    activeWidget (ui s') =
      Some (stock (js_or (field d "symbol") (JStr "STK")) base history) /\
    length history = 10%nat /\
    (forall i, (i < 10)%nat ->
       history !! i =
         Some (js_add_num rt base (swing rt (random_calls (env s) + i)))) /\
    random_calls (env s') = (random_calls (env s) + 10)%nat /\
    (forall text, field d "price" = JStr text -> text <> "" ->
       Forall (fun v => exists tail, v = JStr (text +:+ tail)) history).
Proof.
  intros Hn Ha Ht Hd base s'. subst s'.
  unfold run, dispatch, tool_body, render_widget, arg.
  rewrite Hn, Ha. simpl.
  unfold mbind, M_bind, try_catch, mret, M_ret. simpl.
  rewrite Ht, Hd. simpl. fold base.
  eexists. split; [reflexivity|]. split; [reflexivity|].
  split; [|split].
  - intros i Hi.
    assert (E : forall n m, n = m ->
                  Some (js_add_num rt base (swing rt n)) =
                  Some (js_add_num rt base (swing rt m)))
      by (intros n m ->; reflexivity).
    do 10 (destruct i as [|i]; [apply E; lia|]).
    lia.
  - lia.
  - intros text Hp Hne. subst base. rewrite Hp.
    assert (E : js_or (JStr text) (JNum 100) = JStr text).
    { unfold js_or, truthy. destruct text; [contradiction|reflexivity]. }
    rewrite E. repeat constructor; eexists; reflexivity.
Qed.

Lemma floor_of_doubled r :
  (0 <= r)%Q -> (r < 1)%Q -> Qfloor (r * 2) = 0 \/ Qfloor (r * 2) = 1.
Proof.
  intros H0 H1.
  assert (Hlo : 0 <= Qfloor (r * 2)).
  { change 0 with (Qfloor 0). apply Qfloor_resp_le. lra. }
  assert (Hhi : Qfloor (r * 2) < 2).
  { apply Z.lt_nge. intros Hge.
    pose proof (Qfloor_le (r * 2)) as Hf.
    assert (2 <= inject_Z (Qfloor (r * 2)))%Q.
    { change 2%Q with (inject_Z 2). rewrite <- Zle_Qle. exact Hge. }
    lra. }
  lia.
Qed.

(** Property X14.  With [Math.random] in its range, [get_weather] answers
    "Sunny" or "Rainy", never anything else, at 25 degrees Celsius for the
    location asked, draws one random number and leaves the React state
    alone. *)
Theorem weather_report_is_sunny_or_rainy rt fc a s :
  (0 <= random rt (random_calls (env s)))%Q ->
  (random rt (random_calls (env s)) < 1)%Q ->
  fc_name fc = "get_weather" ->
  fc_args fc = Some a ->
  let s' := run (dispatch rt fc) s in
  exists w,
    (w = "Sunny" \/ w = "Rainy") /\
    sent (env s') =
      sent (env s) ++
      [response fc (JObj (<["weather" := JStr w]>
                         (<["temperature" := JNum 25]>
                         (<["unit" := JStr "Celsius"]>
                         (<["location" := field a "location"]> ∅)))))] /\
    ui s' = ui s /\
    random_calls (env s') = S (random_calls (env s)).
Proof.
  intros H0 H1 Hn Ha s'. subst s'.
  unfold run, dispatch, tool_body, get_weather, arg, math_random, response.
  rewrite Hn, Ha. with_strategy opaque [Qfloor Qmult] simpl.
  unfold mbind, M_bind, try_catch, mret, M_ret.
  with_strategy opaque [Qfloor Qmult] simpl.
  destruct (floor_of_doubled _ H0 H1) as [E|E]; rewrite E.
  - exists "Sunny". repeat split. left. reflexivity.
  - exists "Rainy". repeat split. right. reflexivity.
Qed.


(** Property X13.  [change_tab] with a text [tab_name] always answers
    "Switched view to" followed by the lower-cased name; the tab changes
    to the first of chat, term, live that the name contains, and not at
    all when it contains none of them. *)
Theorem change_tab_always_reports_switch rt fc a name s :
  fc_name fc = "change_tab" ->
  fc_args fc = Some a ->
  field a "tab_name" = JStr name ->
  let tab := toLowerCase rt name in
  let s' := run (dispatch rt fc) s in
  sent (env s') =
    sent (env s) ++ [response fc (result_obj ("Switched view to " +:+ tab))] /\
  tab_changes (env s') = tab_changes (env s) ++ routed rt tab /\
  (includes tab "chat" = false -> includes tab "term" = false ->
   includes tab "live" = false -> tab_changes (env s') = tab_changes (env s)).
Proof.
  intros Hn Ha Ht tab s'. subst s' tab.
  unfold run, dispatch, tool_body, change_tab, arg, response, routed.
  rewrite Hn, Ha. simpl.
  unfold mbind, M_bind, try_catch, mret, M_ret. simpl.
  rewrite Ht. simpl.
  destruct (onChangeTab rt); simpl;
    destruct (includes (toLowerCase rt name) "chat"); simpl;
    destruct (includes (toLowerCase rt name) "term"); simpl;
    destruct (includes (toLowerCase rt name) "live"); simpl;
    repeat split; try (rewrite app_nil_r; reflexivity);
    intros; try discriminate; try (rewrite app_nil_r; reflexivity); reflexivity.
Qed.

(** Property X18.  When the search behind [search_web] fails, the call is
    answered with the error payload, and the task stays "searching" and
    active with no timeout armed to clear it. *)
Theorem failed_search_leaves_task_searching rt fc a s :
  fc_name fc = "search_web" ->
  fc_args fc = Some a ->
  generateContent rt (field a "query") = None ->
  let s' := run (dispatch rt fc) s in
  task_status (task (ui s')) = searching /\
  task_isActive (task (ui s')) = true /\
  timeouts (env s') = timeouts (env s) /\
  sent (env s') =
    sent (env s) ++ [response fc (error_obj "Tool execution failed")].
Proof.
  intros Hn Ha Hg s'. subst s'.
  unfold run, dispatch, tool_body, search_web, generateTextResponse, arg,
    response.
  rewrite Hn, Ha. simpl.
  unfold mbind, M_bind, try_catch, mret, M_ret. simpl.
  rewrite Hg. destruct (API_KEY rt); repeat split.
Qed.

(** Property X19.  When the search succeeds, the answer sent is never
    empty (the text found, or a fixed text when there is none), and the
    task goes from searching to completed to idle as the two timeouts it
    arms fire. *)
Theorem search_task_runs_to_idle rt fc a text sources s :
  fc_name fc = "search_web" ->
  fc_args fc = Some a ->
  generateContent rt (field a "query") = Some (text, sources) ->
  let s1 := run (dispatch rt fc) s in
  let s2 := run (run_timer MarkCompleted) s1 in
  let s3 := run (run_timer ResetTask) s2 in
  task_status (task (ui s1)) = searching /\
  timeouts (env s1) =
    timeouts (env s) ++ [(1000, MarkCompleted); (2000, ResetTask)] /\
  (exists answer,
     answer <> "" /\
     (text <> "" -> answer = text) /\
     sent (env s1) =
       sent (env s) ++
       [response fc (JObj (<["result" := JStr answer]>
                          (<["metadata" :=
                              JObj {[ "sources" := JArr sources ]}]> ∅)))]) /\
  task_status (task (ui s2)) = completed /\
  appName (task (ui s2)) = Some (JStr "NetSearch") /\
  task (ui s3) = idle_task.
Proof.
  intros Hn Ha Hg s1 s2 s3. subst s1 s2 s3.
  unfold run, dispatch, tool_body, search_web, generateTextResponse, arg,
    response.
  rewrite Hn, Ha. simpl.
  unfold mbind, M_bind, try_catch, mret, M_ret. simpl.
  rewrite Hg.
  assert (Hanswer : exists answer,
            answer <> "" /\ (text <> "" -> answer = text) /\
            answer = (if bool_decide (text = "")
                      then match sources with
                           | [] => "I couldn't generate a response."
                           | _ :: _ =>
                               "I found some results on the web. (See sources)"
                           end
                      else text)).
  { destruct (bool_decide (text = "")) eqn:E.
    - apply bool_decide_eq_true in E.
      destruct sources; eexists; (split; [|split; [|reflexivity]]);
        try discriminate; intros; contradiction.
    - apply bool_decide_eq_false in E. exists text. auto. }
  destruct Hanswer as (answer & Hne & Hsame & ->).
  destruct (API_KEY rt); simpl; rewrite <- !app_assoc; simpl;
    (split; [reflexivity|]); (split; [reflexivity|]);
    (split; [|repeat split]);
    eexists; (split; [exact Hne|]); (split; [exact Hsame|]); reflexivity.
Qed.

(** Property X20.  An [order_food] call takes the task through
    processing, payment (when its timeout fires), completed (when the user
    authorises) and idle (when the last timeout fires), keeping the item
    and the price 25.00 in its details until it is reset. *)
Theorem order_runs_through_payment rt fc a s :
  fc_name fc = "order_food" ->
  fc_args fc = Some a ->
  let s1 := run (dispatch rt fc) s in
  let s2 := run (run_timer MarkPayment) s1 in
  let s3 := run handlePayment s2 in
  let s4 := run (run_timer ResetTask) s3 in
  let order :=
    Some (JObj (<["item" := field a "item"]>
               (<["price" := JStr "25.00"]> ∅))) in
  task_status (task (ui s1)) = processing /\
  details (task (ui s1)) = order /\
  timeouts (env s1) = timeouts (env s) ++ [(2000, MarkPayment)] /\
  sent (env s1) =
    sent (env s) ++
    [response fc (result_obj "Order staged. Waiting for payment.")] /\
  task_status (task (ui s2)) = payment /\
  actionDescription (task (ui s2)) = Some "Awaiting Authorization" /\
  details (task (ui s2)) = order /\
  task_status (task (ui s3)) = completed /\
  details (task (ui s3)) = order /\
  timeouts (env s3) = timeouts (env s1) ++ [(3000, ResetTask)] /\
  task (ui s4) = idle_task.
Proof.
  intros Hn Ha s1 s2 s3 s4 order. subst s1 s2 s3 s4 order.
  unfold run, dispatch, tool_body, order_food, arg, response.
  rewrite Hn, Ha. simpl. repeat split.
Qed.

(** Property X21.  The reset armed by [open_app] is not tied to its task:
    when an order is placed before it fires, it resets the order's task to
    idle while the order's own timeout is still armed. *)
Theorem stale_reset_clears_newer_task rt opened ordered a s :
  fc_name opened = "open_app" ->
  fc_args opened = Some a ->
  fc_name ordered = "order_food" ->
  is_Some (fc_args ordered) ->
  let s1 := run (dispatch rt opened) s in
  let s2 := run (dispatch rt ordered) s1 in
  let s3 := run (run_timer ResetTask) s2 in
  timeouts (env s1) = timeouts (env s) ++ [(2000, ResetTask)] /\
  task_status (task (ui s2)) = processing /\
  task (ui s3) = idle_task /\
  timeouts (env s3) =
    timeouts (env s) ++ [(2000, ResetTask); (2000, MarkPayment)].
Proof.
  intros Hn Ha Hn2 [a2 Ha2] s1 s2 s3. subst s1 s2 s3.
  unfold run, dispatch, tool_body, open_app, order_food, arg.
  rewrite Hn, Ha, Hn2, Ha2. simpl. rewrite <- app_assoc. repeat split.
Qed.

(** ** Invariants of a session *)

Lemma session_inv_transfer s s' :
  session_inv s ->
  (next_id (env s) <= next_id (env s'))%nat ->
  (forall x, x ∈ acquired (env s') -> x ∈ acquired (env s)) ->
  sourcesRef (refs s') `sublist_of` sourcesRef (refs s) ->
  session_inv s'.
Proof.
  intros (Hl & Ha & Hs & Hd) Hn Hsub Hsrc. repeat split.
  - unfold live_started in *. apply Forall_forall. intros n Hin.
    rewrite Forall_forall in Hl. apply Hl. eapply elem_of_sublist; eassumption.
  - apply Forall_forall. intros x Hx. rewrite Forall_forall in Ha.
    specialize (Ha x (Hsub x Hx)). lia.
  - apply Forall_forall. intros n Hin. rewrite Forall_forall in Hs.
    specialize (Hs n (elem_of_sublist _ _ _ Hin Hsrc)). lia.
  - eapply sublist_NoDup; [exact Hd|]. apply fmap_sublist. exact Hsrc.
Qed.


Lemma session_inv_quiet {A} (m : M A) s :
  quiet m -> session_inv s -> session_inv (run m s).
Proof.
  intros (Hr & Ha & Hn) H. unfold run.
  apply (session_inv_transfer s); [exact H | | |].
  - rewrite (Hn s). lia.
  - intros x. rewrite (Ha s). auto.
  - rewrite (Hr s). reflexivity.
Qed.

Ltac quiet_tac := repeat split; preserve.

Lemma dispatch_quiet rt fc : quiet (dispatch rt fc).
Proof. unfold quiet. repeat split; unfold_tools; preserve. Qed.

Lemma tool_calls_quiet rt (o : option (option (list FunctionCall))) :
  quiet (match o with
         | Some (Some functionCalls) => for_each (dispatch rt) functionCalls
         | Some None => throw TypeError
         | None => mret tt
         end).
Proof.
  unfold quiet. split; [|split]; apply tool_calls_preserve; intros fc;
    destruct (dispatch_quiet rt fc) as (? & ? & ?); assumption.
Qed.

Lemma session_inv_scheduled s now buf :
  session_inv s -> session_inv (scheduled s now buf).
Proof.
  intros (Hl & Ha & Hs & Hd). unfold session_inv, live_started. simpl.
  repeat split.
  - apply Forall_app. split; [exact Hl|]. repeat constructor.
  - eapply Forall_impl; [exact Ha|]. simpl. intros. lia.
  - apply Forall_app. split.
    + eapply Forall_impl; [exact Hs|]. simpl. intros. lia.
    + repeat constructor.
  - rewrite fmap_app. apply NoDup_app. split; [exact Hd|]. split.
    + intros x Hx Hin. simpl in Hin. apply list_elem_of_singleton in Hin.
      subst x. apply list_elem_of_fmap in Hx. destruct Hx as (n & Hn & Hin).
      rewrite Forall_forall in Hs. specialize (Hs n Hin). lia.
    + simpl. apply NoDup_singleton.
Qed.

Lemma session_inv_schedule rt data now s :
  session_inv s -> session_inv (run (schedule rt data now) s).
Proof.
  intros H. unfold run. destruct (decodeAudioData rt data) as [buf|] eqn:E.
  - rewrite (schedule_decoded rt data now buf s E).
    apply session_inv_scheduled. exact H.
  - rewrite (schedule_failed rt data now s E). exact H.
Qed.

Lemma session_inv_interrupted s now :
  session_inv s -> session_inv (interrupted_state s now).
Proof.
  intros H. apply (session_inv_transfer s); simpl;
    [exact H | lia | auto | apply sublist_nil_l].
Qed.

Lemma session_inv_message rt message now s :
  session_inv s -> session_inv (run (onmessage rt message now) s).
Proof.
  intros H. unfold run, onmessage. destruct (interrupted message).
  - rewrite (interrupt_spec now s (proj1 H)).
    apply session_inv_interrupted. exact H.
  - unfold mbind at 1, M_bind at 1.
    pose proof (session_inv_quiet _ s (tool_calls_quiet rt (toolCall message)) H)
      as H1.
    unfold run in H1.
    destruct (match toolCall message with
              | Some (Some functionCalls) =>
                  for_each (dispatch rt) functionCalls
              | Some None => throw TypeError
              | None => mret tt
              end s) as [s1 [[]|e]]; simpl in H1; [|exact H1].
    destruct (inlineData message) as [d|]; [|exact H1].
    destruct (bool_decide (d = "")); [exact H1|].
    apply session_inv_schedule. exact H1.
Qed.

Lemma rank_interval i : resource_rank (Interval (Pos.of_succ_nat i)) = i.
Proof. simpl. rewrite SuccNat2Pos.id_succ. reflexivity. Qed.

Lemma session_inv_acquired s s' news :
  session_inv s ->
  refs s' = refs s \/ sourcesRef (refs s') = sourcesRef (refs s) ->
  acquired (env s') = acquired (env s) ++ news ->
  (next_id (env s) <= next_id (env s'))%nat ->
  Forall (fun r => (resource_rank r < next_id (env s'))%nat) news ->
  session_inv s'.
Proof.
  intros (Hl & Ha & Hs & Hd) Hr Hacq Hn Hnew.
  assert (E : sourcesRef (refs s') = sourcesRef (refs s)).
  { destruct Hr as [-> | ->]; reflexivity. }
  unfold session_inv, live_started. rewrite E, Hacq. repeat split.
  - exact Hl.
  - apply Forall_app. split; [|exact Hnew].
    eapply Forall_impl; [exact Ha|]. simpl. intros. lia.
  - eapply Forall_impl; [exact Hs|]. simpl. intros. lia.
  - exact Hd.
Qed.

Lemma stopVideo_next_id : preserves (fun s => next_id (env s)) stopVideo.
Proof. unfold stopVideo, cleanupVideo, release, setIsCameraActive. preserve. Qed.

Lemma cleanupAudio_next_id : preserves (fun s => next_id (env s)) cleanupAudio.
Proof. unfold cleanupAudio, stop_source, release. preserve. Qed.

Lemma stopSession_next_id : preserves (fun s => next_id (env s)) stopSession.
Proof.
  unfold stopSession, stopVideo, cleanupVideo, cleanupAudio, stop_source,
    release, setStatus, setIsActive, setIsCameraActive, setVolume,
    setActiveWidget.
  preserve.
Qed.

Lemma session_inv_handle rt ev s :
  session_inv s -> session_inv (run (handle rt ev) s).
Proof.
  intros H. destruct ev as [message now|id|a| | | |granted| | |]; simpl.
  - apply session_inv_message. exact H.
  - apply (session_inv_transfer s); [exact H | simpl; lia | simpl; auto |].
    simpl. apply sublist_filter.
  - apply session_inv_quiet; [|exact H].
    unfold quiet, run_timer, updateTask, setTask. destruct a; quiet_tac.
  - apply (session_inv_acquired s _
             [AudioNode (next_id (env s)); AudioNode (S (next_id (env s)))]);
      [exact H | right; reflexivity
      | simpl; rewrite <- !app_assoc; reflexivity | simpl; lia |].
    repeat constructor; simpl; lia.
  - apply session_inv_quiet; [|exact H].
    unfold quiet, onclose, setStatus, setIsActive. quiet_tac.
  - apply session_inv_quiet; [|exact H].
    unfold quiet, onerror, setStatus, addLog, setIsActive. quiet_tac.
  - destruct granted.
    + apply (session_inv_acquired s _
               [Tracks (next_id (env s));
                Interval (Pos.of_succ_nat (S (next_id (env s))))]);
        [exact H | right; reflexivity
        | simpl; rewrite <- !app_assoc; reflexivity | simpl; lia |].
      constructor; [simpl; lia|]. constructor; [|constructor].
      rewrite rank_interval. simpl. lia.
    + apply session_inv_quiet; [|exact H]. unfold quiet. repeat split;
        intros s0; reflexivity.
  - destruct (cleanupVideo_spec s) as (s' & Hv & _ & Hr & _ & Ha).
    apply (session_inv_transfer s); [exact H | | |].
    + unfold run. rewrite (stopVideo_next_id s). lia.
    + intros x. unfold run, stopVideo. rewrite (bind_ok _ _ _ _ _ Hv). simpl.
      intros Hx. apply Ha in Hx. tauto.
    + unfold run, stopVideo. rewrite (bind_ok _ _ _ _ _ Hv). simpl.
      rewrite Hr. reflexivity.
  - apply session_inv_quiet; [|exact H].
    unfold quiet, handlePayment, run_timer, updateTask, addLog, setTimeout.
    quiet_tac.
  - destruct (stopSession_spec s (proj1 H)) as (s' & Heq & _ & Hr & _ & Ha).
    apply (session_inv_transfer s); [exact H | | |].
    + unfold run. rewrite (stopSession_next_id s). lia.
    + intros x. unfold run. rewrite Heq. simpl. intros Hx. apply Ha in Hx. tauto.
    + unfold run. rewrite Heq. simpl. rewrite Hr. apply sublist_nil_l.
Qed.

Lemma session_inv_start rt granted now s :
  session_inv s -> session_inv (run (startSession rt granted now) s).
Proof.
  intros H. unfold run, startSession.
  destruct (negb (API_KEY rt)).
  - apply (session_inv_acquired s _ []);
      [exact H | right; reflexivity | simpl; rewrite app_nil_r; reflexivity
      | simpl; lia | constructor].
  - destruct granted.
    + apply (session_inv_acquired s _
               [Context (next_id (env s)); Context (S (next_id (env s)));
                Tracks (S (S (next_id (env s))));
                Channel (S (S (S (next_id (env s)))))]);
        [exact H | right; reflexivity | | simpl; lia |].
      * simpl. rewrite <- !app_assoc. reflexivity.
      * repeat constructor; simpl; lia.
    + simpl. unfold try_catch, mbind, M_bind. simpl.
      match goal with
      | |- context [cleanupAudio ?st] =>
          assert (H2 : session_inv st)
      end.
      { apply (session_inv_acquired s _
                 [Context (next_id (env s)); Context (S (next_id (env s)))]);
          [exact H | right; reflexivity | | simpl; lia |].
        - simpl. rewrite <- !app_assoc. reflexivity.
        - repeat constructor; simpl; lia. }
      match goal with
      | |- context [cleanupAudio ?st] =>
          destruct (cleanupAudio_spec st (proj1 H2))
            as (s' & Hc & _ & Hr & _ & _ & _ & Ha);
          rewrite Hc;
          assert (Hn : next_id (env s') = next_id (env st))
      end.
      { change s' with (fst (s', @Ok unit tt)). rewrite <- Hc.
        apply cleanupAudio_next_id. }
      apply (session_inv_transfer _ _ H2); simpl.
      * rewrite Hn. simpl. lia.
      * intros x Hx. apply Ha in Hx. tauto.
      * rewrite Hr. apply sublist_nil_l.
Qed.

(** Property X1.  In every state the component can reach from its initial
    state by starting sessions and handling events, every live source has
    been started, no two live sources are the same source, and nothing
    held or live bears a number the platform has yet to give out. *)
Theorem reachable_states_are_consistent rt s :
  reachable rt s -> session_inv s.
Proof.
  induction 1 as [|s granted now _ IH|s ev _ IH].
  - repeat split; constructor.
  - apply session_inv_start. exact IH.
  - apply session_inv_handle. exact IH.
Qed.

(** ** Interrupts, whatever the live set *)


Lemma stop_all_caught_any srcs s :
  for_each (fun n => try_catch (stop_source n) (fun _ => mret tt)) srcs s =
    (upd_env (with_audio_log (fun l => l ++ stops (started_only srcs))) s,
     Ok tt).
Proof.
  revert s. induction srcs as [|n srcs IH]; intros s.
  - simpl. rewrite upd_audio_log_nil. reflexivity.
  - simpl. unfold mbind, M_bind, try_catch, stop_source.
    destruct (src_started n) eqn:E; simpl.
    + replace (started_only (n :: srcs)) with (n :: started_only srcs)
        by (symmetry; apply filter_cons_True; exact E).
      rewrite IH. rewrite upd_audio_log_app. reflexivity.
    + replace (started_only (n :: srcs)) with (started_only srcs)
        by (symmetry; apply filter_cons_False; rewrite E; discriminate).
      rewrite IH. reflexivity.
Qed.

Lemma starts_stops l srcs : starts (l ++ stops srcs) = starts l.
Proof.
  unfold starts. rewrite omap_app.
  assert (E : omap (fun e => match e with
                             | AStart _ w _ => Some w
                             | AStop _ => None
                             end) (stops srcs) = []).
  { induction srcs as [|n srcs IH]; [reflexivity|]. simpl. exact IH. }
  rewrite E. apply app_nil_r.
Qed.

(** Property X3.  A message flagged as an interrupt is handled as an
    interrupt only: its tool calls get no response, its audio is not
    started, the React state is left alone, and the handler does not throw
    even when a live source was never started. *)
Theorem interrupt_discards_rest_of_message rt message now s :
  interrupted message = true ->
  let s' := run (onmessage rt message now) s in
  outcome (onmessage rt message now) s = Ok tt /\
  sent (env s') = sent (env s) /\
  starts (audio_log (env s')) = starts (audio_log (env s)) /\
  ui s' = ui s /\
  timeouts (env s') = timeouts (env s) /\
  sourcesRef (refs s') = [].
Proof.
  intros Hi s'. subst s'. unfold run, outcome, onmessage. rewrite Hi.
  unfold interrupt, mbind, M_bind. simpl.
  rewrite stop_all_caught_any. simpl.
  repeat split. apply starts_stops.
Qed.

(** ** Buffers never overlap *)

Lemma disjoint_from_mono w0 w1 evs :
  w0 <= w1 -> disjoint_from w1 evs -> disjoint_from w0 evs.
Proof.
  revert w0 w1. induction evs as [|[id t d|id] evs IH]; intros w0 w1 Hw H;
    simpl in *.
  - exact I.
  - destruct H as [H1 H2]. split; [lia | exact H2].
  - eapply IH; eassumption.
Qed.

Lemma last_end_mono w0 w1 evs :
  w0 <= w1 -> last_end w0 evs <= last_end w1 evs.
Proof.
  revert w0 w1. induction evs as [|[id t d|id] evs IH]; intros w0 w1 Hw;
    simpl.
  - exact Hw.
  - lia.
  - apply IH. exact Hw.
Qed.

Lemma disjoint_from_app w a b :
  disjoint_from w a -> disjoint_from (last_end w a) b ->
  disjoint_from w (a ++ b).
Proof.
  revert w. induction a as [|[id t d|id] a IH]; intros w Ha Hb; simpl in *.
  - exact Hb.
  - destruct Ha as [H1 H2]. split; [exact H1|]. apply IH; assumption.
  - apply IH; assumption.
Qed.

Lemma last_end_app w a b : last_end w (a ++ b) = last_end (last_end w a) b.
Proof.
  revert w. induction a as [|[id t d|id] a IH]; intros w; simpl; auto.
Qed.

Lemma disjoint_from_stops w srcs : disjoint_from w (stops srcs).
Proof. induction srcs; simpl; auto. Qed.

Lemma last_end_stops w srcs : last_end w (stops srcs) = w.
Proof. induction srcs; simpl; auto. Qed.

Lemma dispatch_audio_log rt fc :
  preserves (fun s => audio_log (env s)) (dispatch rt fc).
Proof. unfold_tools. preserve. Qed.

Lemma silent_events_preserve_audio_log rt ev :
  match ev with EvMessage _ _ | EvStop => False | _ => True end ->
  preserves (fun s => audio_log (env s)) (handle rt ev).
Proof.
  destruct ev; simpl; intros H; try destruct H;
    unfold on_ended, run_timer, onopen, onclose, onerror, startVideo,
      stopVideo, handlePayment, cleanupVideo,
      getUserMedia, release, acquire, fresh, updateTask, setTask,
      setStatus, setIsActive, setIsCameraActive,
      setTimeout, console_error, addLog;
    preserve.
Qed.

(** What one event adds to the audio log. *)
Lemma handle_adds_disjoint rt ev s :
  live_started s ->
  is_interrupt ev = false ->
  exists evs,
    audio_log (env (run (handle rt ev) s)) = audio_log (env s) ++ evs /\
    disjoint_from (nextStartTimeRef (refs s)) evs /\
    last_end (nextStartTimeRef (refs s)) evs <=
      nextStartTimeRef (refs (run (handle rt ev) s)).
Proof.
  intros Hl Hi.
  assert (Hquiet :
    match ev with EvMessage _ _ | EvStop => False | _ => True end ->
    exists evs,
      audio_log (env (run (handle rt ev) s)) = audio_log (env s) ++ evs /\
      disjoint_from (nextStartTimeRef (refs s)) evs /\
      last_end (nextStartTimeRef (refs s)) evs <=
        nextStartTimeRef (refs (run (handle rt ev) s))).
  { intros Hq. exists []. unfold run.
    rewrite (silent_events_preserve_audio_log rt ev Hq s), app_nil_r.
    rewrite (quiet_events_preserve_watermark rt ev
               ltac:(destruct ev; try exact I; destruct Hq) s).
    simpl. repeat split. lia. }
  destruct ev as [message now| | | | | | | | |]; try (apply Hquiet; exact I).
  - clear Hquiet. simpl in *. unfold run, onmessage. rewrite Hi.
    unfold mbind, M_bind.
    pose proof (tool_calls_preserve (fun s => audio_log (env s)) rt
                  (toolCall message) (dispatch_audio_log rt) s) as Ha.
    pose proof (tool_calls_preserve (fun s => nextStartTimeRef (refs s)) rt
                  (toolCall message) (dispatch_watermark rt) s) as Hw.
    destruct (match toolCall message with
              | Some (Some functionCalls) =>
                  for_each (dispatch rt) functionCalls
              | Some None => throw TypeError
              | None => mret tt
              end s) as [s1 [[]|e]]; simpl in Ha, Hw.
    + destruct (inlineData message) as [d|];
        [|exists []; simpl; rewrite Ha, Hw, app_nil_r; repeat split; lia].
      destruct (bool_decide (d = ""));
        [exists []; simpl; rewrite Ha, Hw, app_nil_r; repeat split; lia|].
      destruct (decodeAudioData rt d) as [buf|] eqn:E.
      * rewrite (schedule_decoded rt d now buf s1 E). simpl.
        rewrite Ha, Hw. eexists. split; [reflexivity|]. simpl.
        repeat split; lia.
      * rewrite (schedule_failed rt d now s1 E). simpl.
        rewrite Ha, Hw. exists []. rewrite app_nil_r. simpl.
        repeat split; lia.
    + exists []. simpl. rewrite Ha, Hw, app_nil_r. repeat split; lia.
  - clear Hquiet. simpl.
    destruct (stopSession_spec s Hl) as (s' & Heq & _ & Hr & Ha & _).
    unfold run. rewrite Heq. simpl. rewrite Ha, Hr. eexists.
    split; [reflexivity|]. split; [apply disjoint_from_stops|].
    rewrite last_end_stops. simpl. lia.
Qed.

(** Property X2.  Whatever events a session handles, short of an
    interrupt, the buffers it starts never overlap: each is started no
    earlier than the watermark it found, hence no earlier than the end of
    the buffer started before it, and the watermark ends no earlier than
    the end of the last one. *)
Theorem scheduled_buffers_never_overlap rt evs s :
  live_started s ->
  Forall (fun ev => is_interrupt ev = false) evs ->
  exists added,
    audio_log (env (handle_all rt evs s)) = audio_log (env s) ++ added /\
    disjoint_from (nextStartTimeRef (refs s)) added /\
    last_end (nextStartTimeRef (refs s)) added <=
      nextStartTimeRef (refs (handle_all rt evs s)).
Proof.
  intros Hl H. revert s Hl. induction H as [|ev evs Hev _ IH]; intros s Hl.
  - exists []. simpl. rewrite app_nil_r. repeat split. lia.
  - simpl.
    destruct (handle_adds_disjoint rt ev s Hl Hev) as (e1 & Hlog1 & Hd1 & He1).
    destruct (IH _ (live_started_handle rt ev s Hl)) as (e2 & Hlog2 & Hd2 & He2).
    exists (e1 ++ e2). unfold handle_all in *. split; [|split].
    + rewrite Hlog2, Hlog1, <- app_assoc. reflexivity.
    + apply disjoint_from_app; [exact Hd1|].
      eapply disjoint_from_mono; [exact He1 | exact Hd2].
    + rewrite last_end_app.
      etransitivity; [apply last_end_mono; exact He1 | exact He2].
Qed.

(** ** The end of a source *)

Lemma filter_other_ids (l : list SourceNode) id :
  id ∉ (src_id <$> l) -> filter (fun m => src_id m <> id) l = l.
Proof.
  induction l as [|m l IH]; intros H; [reflexivity|].
  rewrite fmap_cons, not_elem_of_cons in H. destruct H as [Hm Hl].
  rewrite filter_cons_True by congruence. rewrite IH by exact Hl. reflexivity.
Qed.

Lemma filter_one_id (l : list SourceNode) n :
  NoDup (src_id <$> l) -> n ∈ l ->
  length (filter (fun m => src_id m <> src_id n) l) = pred (length l) /\
  (forall m, m ∈ filter (fun m => src_id m <> src_id n) l <-> m ∈ l /\ m <> n).
Proof.
  intros Hd Hn. split.
  - induction l as [|m l IH]; [inversion Hn|].
    rewrite fmap_cons in Hd. apply NoDup_cons in Hd as [Hm Hd].
    apply elem_of_cons in Hn as [->|Hn].
    + rewrite filter_cons_False by (intros H; apply H; reflexivity).
      rewrite filter_other_ids by exact Hm. reflexivity.
    + assert (src_id m <> src_id n).
      { intros E. apply Hm. rewrite E.
        apply (list_elem_of_fmap_2 src_id). exact Hn. }
      rewrite filter_cons_True by assumption. simpl.
      rewrite (IH Hd Hn). destruct l; [inversion Hn | reflexivity].
  - intros m. rewrite list_elem_of_filter. split.
    + intros [H1 H2]. split; [exact H2|]. intros ->. apply H1. reflexivity.
    + intros [H1 H2]. split; [|exact H1]. intros E. apply H2.
      clear H2. induction l as [|k l IH]; [inversion Hn|].
      rewrite fmap_cons in Hd. apply NoDup_cons in Hd as [Hk Hd].
      apply elem_of_cons in Hn as [->|Hn]; apply elem_of_cons in H1 as [->|H1];
        try reflexivity.
      * exfalso. apply Hk. rewrite <- E.
        apply (list_elem_of_fmap_2 src_id). exact H1.
      * exfalso. apply Hk. rewrite E.
        apply (list_elem_of_fmap_2 src_id). exact Hn.
      * apply IH; assumption.
Qed.

(** Property X4.  When a live source ends, exactly that source leaves the
    live set, the others stay, and nothing else changes; a second end
    event for it changes nothing. *)
Theorem ended_source_leaves_alone s n :
  session_inv s ->
  n ∈ sourcesRef (refs s) ->
  let s' := run (on_ended (src_id n)) s in
  length (sourcesRef (refs s')) = pred (length (sourcesRef (refs s))) /\
  (forall m, m ∈ sourcesRef (refs s') <-> m ∈ sourcesRef (refs s) /\ m <> n) /\
  sourcesRef (refs (run (on_ended (src_id n)) s')) = sourcesRef (refs s') /\
  nextStartTimeRef (refs s') = nextStartTimeRef (refs s) /\
  env s' = env s /\ ui s' = ui s.
Proof.
  intros (_ & _ & _ & Hd) Hn s'. subst s'. unfold run, on_ended. simpl.
  destruct (filter_one_id _ n Hd Hn) as [Hlen Hmem].
  split; [exact Hlen|]. split; [exact Hmem|]. split; [|repeat split].
  apply filter_other_ids. intros H.
  apply list_elem_of_fmap in H. destruct H as (m & Hm & Hin).
  apply list_elem_of_filter in Hin. destruct Hin as [Hne _]. congruence.
Qed.

(** ** Holding and releasing *)

Lemma held_nil r :
  held r = [] ->
  scriptProcessorRef r = None /\ sourceNodeRef r = None /\
  audioStreamRef r = None /\ inputContextRef r = None /\
  outputContextRef r = None /\ sessionPromiseRef r = None /\
  frameIntervalRef r = None /\ videoStreamRef r = None.
Proof.
  destruct r as [ic oc sp proc sn ast ns srcs vs fi]. unfold held. simpl.
  destruct proc; [discriminate|]. destruct sn; [discriminate|].
  destruct ast; [discriminate|]. destruct ic; [discriminate|].
  destruct oc; [discriminate|]. destruct sp; [discriminate|].
  destruct fi; [discriminate|]. destruct vs; [discriminate|].
  repeat split.
Qed.

Lemma fresh_not_acquired s r :
  session_inv s -> (next_id (env s) <= resource_rank r)%nat ->
  r ∉ acquired (env s).
Proof.
  intros (_ & Ha & _) Hr Hin. rewrite Forall_forall in Ha.
  specialize (Ha r Hin). lia.
Qed.

(** Property X5.  Starting a session with the microphone granted, opening
    it and stopping it, from a state that holds nothing, ends without an
    error and leaves acquired exactly what was acquired before, with no
    ref set and the session inactive. *)
Theorem session_gives_back_what_it_took rt now s :
  API_KEY rt = true ->
  session_inv s ->
  torn_down (refs s) ->
  let s' := run stopSession
              (run onopen (run (startSession rt true now) s)) in
  outcome stopSession (run onopen (run (startSession rt true now) s)) =
    Ok tt /\
  (forall x, x ∈ acquired (env s') <-> x ∈ acquired (env s)) /\
  torn_down (refs s') /\
  isActive (ui s') = false.
Proof.
  intros Hk Hinv [Hheld Hsrc] s'. subst s'.
  apply held_nil in Hheld.
  destruct Hheld as (H1 & H2 & H3 & H4 & H5 & H6 & H7 & H8).
  set (s2 := run onopen (run (startSession rt true now) s)).
  assert (Hl : live_started s2).
  { unfold live_started, s2, run, startSession. rewrite Hk. simpl.
    rewrite Hsrc. constructor. }
  destruct (stopSession_spec s2 Hl) as (s3 & Heq & Hu & Hr & _ & Ha).
  unfold run, outcome. rewrite Heq. cbn [fst snd].
  split; [reflexivity|]. split; [|split].
  - intros x. rewrite Ha.
    unfold s2, run, startSession. rewrite Hk. unfold held. simpl.
    rewrite H7, H8. simpl.
    rewrite !elem_of_app, !elem_of_cons, !elem_of_nil.
    assert (Hf : forall r, (next_id (env s) <= resource_rank r)%nat ->
                           x ∈ acquired (env s) -> x <> r).
    { intros r Hrank Hx ->. exact (fresh_not_acquired s _ Hinv Hrank Hx). }
    pose proof (Hf (Context (next_id (env s))) ltac:(simpl; lia)).
    pose proof (Hf (Context (S (next_id (env s)))) ltac:(simpl; lia)).
    pose proof (Hf (Tracks (S (S (next_id (env s))))) ltac:(simpl; lia)).
    pose proof (Hf (Channel (S (S (S (next_id (env s)))))) ltac:(simpl; lia)).
    pose proof (Hf (AudioNode (S (S (S (S (next_id (env s)))))))
                  ltac:(simpl; lia)).
    pose proof (Hf (AudioNode (S (S (S (S (S (next_id (env s))))))))
                  ltac:(simpl; lia)).
    clear Hf. tauto.
  - rewrite Hr. split; reflexivity.
  - rewrite Hu. reflexivity.
Qed.

(** Property X7.  The camera button never touches the audio session
    (its refs, watermark, live set, responses, status, task and widget) and
    never throws; it shows its alert exactly when neither the camera nor
    the session is active, and then changes nothing; a refused camera
    acquires nothing. *)
Theorem camera_toggle_leaves_audio_alone granted s :
  let s' := run (toggleCamera granted) s in
  audio_side s' = audio_side s /\
  (exists alert,
     outcome (toggleCamera granted) s = Ok alert /\
     (alert = None <->
      isCameraActive (ui s) = true \/ isActive (ui s) = true)) /\
  (isCameraActive (ui s) = false -> isActive (ui s) = false -> s' = s) /\
  (isCameraActive (ui s) = false -> granted = false ->
   acquired (env s') = acquired (env s) /\ isCameraActive (ui s') = false).
Proof.
  intros s'. subst s'. split; [|split; [|split]].
  - unfold run. revert s.
    change (preserves audio_side (toggleCamera granted)).
    unfold toggleCamera, stopVideo, startVideo, cleanupVideo, getUserMedia,
      release, acquire, fresh, setIsCameraActive, console_error, addLog.
    preserve.
  - unfold outcome, toggleCamera, stopVideo, startVideo, cleanupVideo,
      getUserMedia, mbind, M_bind, try_catch.
    destruct s as [[act cam st vol tk wd]
                   [ic oc sp proc sn ast ns srcs vs fi] p]. simpl.
    destruct cam; [destruct fi, vs|destruct act; [destruct granted|]]; simpl;
      (eexists; split; [reflexivity|]); split; auto; try discriminate.
    intros [H|H]; discriminate.
  - intros Hc Ha. unfold run, toggleCamera, mbind, M_bind. simpl.
    rewrite Hc, Ha. reflexivity.
  - intros Hc ->. unfold run, toggleCamera, mbind, M_bind. simpl.
    rewrite Hc. destruct (isActive (ui s)); simpl; split; auto.
Qed.

(** Property X8.  In an active session with the camera off, switching the
    camera on acquires the stream and the frame interval, and switching it
    off again releases both: what is acquired is what was acquired
    before. *)
Theorem camera_on_then_off_gives_back granted s :
  session_inv s ->
  isCameraActive (ui s) = false ->
  isActive (ui s) = true ->
  videoStreamRef (refs s) = None ->
  frameIntervalRef (refs s) = None ->
  let s1 := run (toggleCamera true) s in
  let s2 := run (toggleCamera granted) s1 in
  isCameraActive (ui s1) = true /\
  videoStreamRef (refs s1) = Some (next_id (env s)) /\
  acquired (env s1) =
    acquired (env s) ++
    [Tracks (next_id (env s));
     Interval (Pos.of_succ_nat (S (next_id (env s))))] /\
  isCameraActive (ui s2) = false /\
  videoStreamRef (refs s2) = None /\
  frameIntervalRef (refs s2) = None /\
  (forall x, x ∈ acquired (env s2) <-> x ∈ acquired (env s)).
Proof.
  intros Hinv Hc Ha Hv Hf s1 s2. subst s1 s2.
  unfold run, toggleCamera, mbind, M_bind. simpl. rewrite Hc, Ha. simpl.
  unfold mbind, M_bind, try_catch. simpl.
  split; [reflexivity|]. split; [reflexivity|].
  split; [rewrite <- app_assoc; reflexivity|].
  split; [reflexivity|]. split; [reflexivity|]. split; [reflexivity|].
  intros x.
  rewrite !list_elem_of_filter, !elem_of_app, !elem_of_cons, !elem_of_nil.
  assert (Hfr : forall r, (next_id (env s) <= resource_rank r)%nat ->
                          x ∈ acquired (env s) -> x <> r).
  { intros r Hrank Hx ->. exact (fresh_not_acquired s _ Hinv Hrank Hx). }
  pose proof (Hfr (Tracks (next_id (env s))) ltac:(simpl; lia)).
  pose proof (Hfr (Interval (Pos.of_succ_nat (S (next_id (env s)))))
                ltac:(rewrite rank_interval; lia)).
  clear Hfr. tauto.
Qed.

(** Property X6.  [stopSession] writes nothing to the log or the console,
    sends nothing, and leaves the task, the armed timeouts and the
    watermark as they were. *)
Theorem teardown_is_silent s :
  records (run stopSession s) = records s.
Proof.
  unfold run. revert s. change (preserves records stopSession).
  unfold stopSession, stopVideo, cleanupVideo, cleanupAudio, stop_source,
    release, setStatus, setIsActive, setIsCameraActive, setVolume,
    setActiveWidget.
  preserve.
Qed.

(** Property X9.  [captureAndSendFrame] changes no state and sends a frame
    only when the session is referenced and video element, canvas, drawing
    context and JPEG are all there; after [stopSession] it sends
    nothing. *)
Theorem no_frame_without_session video canvas context2d blob s :
  let send := captureAndSendFrame video canvas context2d blob in
  run send s = s /\
  (sessionPromiseRef (refs s) = None -> outcome send s = Ok None) /\
  (live_started s -> outcome send (run stopSession s) = Ok None) /\
  (forall frame, outcome send s = Ok (Some frame) ->
     blob = Some frame /\ is_Some (sessionPromiseRef (refs s)) /\
     video = true /\ canvas = true /\ context2d = true).
Proof.
  intros send. subst send.
  assert (Hnone : forall s0, sessionPromiseRef (refs s0) = None ->
            outcome (captureAndSendFrame video canvas context2d blob) s0 =
              Ok None).
  { intros s0 H. unfold outcome, captureAndSendFrame, mbind, M_bind. simpl.
    rewrite H. simpl. destruct video, canvas; reflexivity. }
  split; [|split; [exact (Hnone s)|split]].
  - unfold run, captureAndSendFrame, mbind, M_bind. simpl.
    destruct (sessionPromiseRef (refs s)) eqn:E, video, canvas, context2d,
      blob; simpl; rewrite ?E; reflexivity.
  - intros Hl. apply Hnone.
    destruct (stopSession_spec s Hl) as (s' & Heq & _ & Hr & _).
    unfold run. rewrite Heq. simpl. rewrite Hr. reflexivity.
  - intros frame. unfold outcome, captureAndSendFrame, mbind, M_bind. simpl.
    destruct (sessionPromiseRef (refs s)) eqn:E, video, canvas, context2d,
      blob; simpl; rewrite ?E; intros H; try discriminate H.
    inversion H. subst. repeat split. eauto.
Qed.

(** ** The terminal log *)

Lemma slice_last_length {A} n (l : list A) :
  length (slice_last n l) = Nat.min n (length l).
Proof. unfold slice_last. rewrite length_drop. lia. Qed.

Lemma slice_last_snoc {A} n (l : list A) x :
  slice_last (S n) (l ++ [x]) = slice_last n l ++ [x].
Proof.
  unfold slice_last. rewrite length_app. simpl.
  rewrite drop_app_le by lia. f_equal. f_equal. lia.
Qed.

Lemma slice_last_slice_last {A} n m (l : list A) :
  (n <= m)%nat -> slice_last n (slice_last m l) = slice_last n l.
Proof.
  intros H. unfold slice_last. rewrite length_drop, drop_drop.
  f_equal. lia.
Qed.

Lemma handleLog_window entry l :
  handleLog entry (slice_last 100 l) = slice_last 100 (l ++ [entry]).
Proof.
  unfold handleLog. rewrite slice_last_slice_last by lia.
  rewrite (slice_last_snoc 99). reflexivity.
Qed.

(** Property X22.  After any number of reported entries the terminal log
    holds exactly the last hundred of them, in order; up to a hundred
    entries it holds them all. *)
Theorem terminal_shows_last_hundred entries :
  terminal_log entries = slice_last 100 entries /\
  (length (terminal_log entries) <= 100)%nat /\
  ((length entries <= 100)%nat -> terminal_log entries = entries).
Proof.
  assert (H : forall l,
            fold_left (fun prev entry => handleLog entry prev) entries
                      (slice_last 100 l) = slice_last 100 (l ++ entries)).
  { induction entries as [|e entries IH]; intros l; simpl.
    - rewrite app_nil_r. reflexivity.
    - rewrite handleLog_window, IH, <- app_assoc. reflexivity. }
  assert (E : terminal_log entries = slice_last 100 entries).
  { unfold terminal_log. exact (H []). }
  split; [exact E|]. rewrite E. split.
  - rewrite slice_last_length. lia.
  - intros Hl. unfold slice_last.
    replace (length entries - 100)%nat with 0%nat by lia. reflexivity.
Qed.

(** ** The text request *)

(** Property X23.  A text request carries the last fifty messages of the
    history at most, in order and as text only, followed by one user turn
    with the prompt; web search is switched on exactly in search mode. *)
Theorem text_request_is_bounded prompt modelType history image :
  let request := text_request prompt modelType history image in
  let kept := Nat.min 50 (length history) in
  length (contents request) = S kept /\
  contents request !! kept = Some (current_content prompt image) /\
  (forall i, (i < kept)%nat ->
     exists msg,
       history !! (length history - kept + i)%nat = Some msg /\
       contents request !! i = Some (past_content msg)) /\
  (googleSearch request = true <-> modelType = SEARCH).
Proof.
  intros request kept. subst request kept. unfold text_request.
  cbn [contents googleSearch].
  assert (Hlen : length (past_content <$> slice_last 50 history) =
                 Nat.min 50 (length history)).
  { rewrite length_fmap. apply slice_last_length. }
  split; [|split; [|split]].
  - rewrite length_app, Hlen. simpl. lia.
  - rewrite lookup_app_r by (rewrite Hlen; lia).
    rewrite Hlen, Nat.sub_diag. reflexivity.
  - intros i Hi.
    rewrite lookup_app_l by (rewrite Hlen; lia).
    rewrite list_lookup_fmap. unfold slice_last. rewrite lookup_drop.
    replace (length history - Nat.min 50 (length history) + i)%nat
      with (length history - 50 + i)%nat by lia.
    destruct (history !! (length history - 50 + i)%nat) as [msg|] eqn:E.
    + exists msg. split; reflexivity.
    + apply lookup_ge_None in E. lia.
  - destruct modelType; split; intros H; try reflexivity; discriminate.
Qed.

Lemma generate_text_spec sv prompt modelType history image :
  match generate_text sv prompt modelType history image with
  | (lines, Ok (text, sources)) =>
      text <> "" /\
      (exists text0,
         remote_text sv (text_request prompt modelType history image) =
           Some (text0, sources) /\
         (text0 <> "" -> text = text0)) /\
      "Error generating text:" ∉ lines
  | (lines, Throw _) =>
      remote_text sv (text_request prompt modelType history image) = None /\
      last lines = Some "Error generating text:"
  end.
Proof.
  unfold generate_text.
  destruct (remote_text sv _) as [[text sources]|] eqn:E.
  - split; [|split].
    + destruct (bool_decide (text = "")) eqn:B.
      * destruct sources; discriminate.
      * apply bool_decide_eq_false in B. exact B.
    + exists text. split; [reflexivity|]. intros Hne.
      rewrite bool_decide_eq_false_2 by exact Hne. reflexivity.
    + destruct (api_key sv).
      * apply not_elem_of_nil.
      * intros H. apply list_elem_of_singleton in H. discriminate.
  - split; [reflexivity|]. apply last_snoc.
Qed.

(** ** The chat session *)


(** Property X24.  A send that the chat accepts (not loading, and a text
    that is not blank or an image) appends the user's message and then
    exactly one message of the model, never empty, which is the fixed
    error text when the call fails; it ends not loading, with the input
    and the image cleared.  A send it does not accept changes nothing. *)
Theorem send_appends_question_and_one_answer sv now later c :
  let c' := handleSend sv now later c in
  (~ sendable sv c -> c' = c) /\
  (sendable sv c ->
   exists question answer,
     messages c' = messages c ++ [question; answer] /\
     msg_role question = user /\
     msg_text question = input c /\
     msg_image question = selectedImage c /\
     msg_role answer = model /\
     msg_text answer <> "" /\
     (remote_text sv (text_request (input c) (mode c) (messages c)
                        (selectedImage c)) = None ->
      msg_text answer = "Error: Neural net unresponsive.") /\
     chat_isLoading c' = false /\
     input c' = "" /\
     selectedImage c' = None).
Proof.
  intros c'. subst c'. unfold handleSend, sendable. split.
  - intros Hn.
    destruct (chat_isLoading c) eqn:El.
    + rewrite orb_true_r. reflexivity.
    + destruct (selectedImage c) as [img|] eqn:Ei.
      * exfalso. apply Hn. split; [reflexivity|]. right. eauto.
      * destruct (bool_decide (trim sv (input c) = "")) eqn:Et; [reflexivity|].
        apply bool_decide_eq_false in Et.
        exfalso. apply Hn. split; [reflexivity|]. left. exact Et.
  - intros [El Hs]. rewrite El, orb_false_r.
    assert (Hg : (bool_decide (trim sv (input c) = "") &&
                  match selectedImage c with
                  | Some _ => false
                  | None => true
                  end) = false).
    { destruct Hs as [Ht|[img Hi]].
      - rewrite bool_decide_eq_false_2 by exact Ht. reflexivity.
      - rewrite Hi. apply andb_false_r. }
    rewrite Hg.
    pose proof (generate_text_spec sv (input c) (mode c)
                  (messages c) (selectedImage c)) as Hgen.
    destruct (generate_text sv (input c) (mode c) (messages c)
                (selectedImage c)) as [lines [[text sources]|e]].
    + destruct Hgen as (Hne & (text0 & Hr & _) & _).
      eexists _, _. rewrite <- app_assoc. split; [reflexivity|].
      repeat split; try exact Hne.
      intros Hnone. rewrite Hnone in Hr. discriminate.
    + eexists _, _. rewrite <- app_assoc. split; [reflexivity|].
      repeat split. discriminate.
Qed.

(** ** The text-to-speech session *)

Lemma generate_speech_spec sv text voice :
  match generateSpeech sv text voice with
  | (lines, Ok audio) =>
      audio <> "" /\ remote_speech sv text voice = Some (Some audio) /\
      "TTS Error:" ∉ lines
  | (lines, Throw _) =>
      last lines = Some "TTS Error:" /\
      (forall audio, remote_speech sv text voice = Some (Some audio) ->
                     audio = "")
  end.
Proof.
  unfold generateSpeech.
  destruct (remote_speech sv text voice) as [[audio|]|] eqn:E.
  - destruct (bool_decide (audio = "")) eqn:B.
    + apply bool_decide_eq_true in B. split; [apply last_snoc|].
      intros a Ha. congruence.
    + apply bool_decide_eq_false in B. split; [exact B|].
      split; [reflexivity|].
      destruct (api_key sv).
      * apply not_elem_of_nil.
      * intros H. apply list_elem_of_singleton in H. discriminate.
  - split; [apply last_snoc|]. intros a H. discriminate.
  - split; [apply last_snoc|]. intros a H. discriminate.
Qed.

(** Property X25.  [handleGenerate] does nothing for a blank text.
    Otherwise it ends with [isLoading] false, and either a source was
    started on decoded, non-empty audio and playback is on without any
    alert, or playback is off, one alert was shown and the failure is on
    the console. *)
Theorem speech_request_always_settles sv t :
  let t' := handleGenerate sv t in
  (trim sv (tts_text t) = "" -> t' = t) /\
  (trim sv (tts_text t) <> "" ->
   tts_isLoading t' = false /\
   ((isPlaying t' = true /\
     alerts t' = alerts t /\
     exists audio buffer,
       remote_speech sv (tts_text t) (selectedVoice t) = Some (Some audio) /\
       audio <> "" /\
       decode_speech sv audio = Some buffer /\
       started_sources t' =
         started_sources t ++ [(tts_next t, buffer)]) \/
    (isPlaying t' = false /\
     alerts t' = alerts t ++ ["Failed to generate speech."] /\
     started_sources t' = started_sources t /\
     last (tts_console t') = Some "TTS play error"))).
Proof.
  intros t'. subst t'. unfold handleGenerate. split.
  - intros H. rewrite bool_decide_eq_true_2 by exact H. reflexivity.
  - intros H. rewrite bool_decide_eq_false_2 by exact H.
    pose proof (generate_speech_spec sv (tts_text t)
                  (selectedVoice t)) as Hg.
    destruct (generateSpeech sv (tts_text t) (selectedVoice t))
      as [lines [audio|e]].
    + destruct Hg as (Hne & Hr & _).
      destruct (decode_speech sv audio) as [buffer|] eqn:Ed.
      * split; [reflexivity|]. left. repeat split. eauto 10.
      * split; [reflexivity|]. right. repeat split. apply last_snoc.
    + split; [reflexivity|]. right. repeat split. apply last_snoc.
Qed.

Lemma filter_fresh_context (l : list nat) ctx :
  Forall (fun c => (c < ctx)%nat) l -> filter (fun c => c <> ctx) l = l.
Proof.
  induction 1 as [|c l Hc _ IH]; [reflexivity|].
  rewrite filter_cons_True by lia. rewrite IH. reflexivity.
Qed.

(** Property X26.  The audio context made for a speech request is closed
    when its source ends, which brings the open contexts back to what they
    were.  When no audio comes back no context is made; when the audio
    fails to decode the context made for it stays open. *)
Theorem speech_context_is_closed_only_after_playback sv t :
  Forall (fun c => (c < tts_next t)%nat) (open_contexts t) ->
  trim sv (tts_text t) <> "" ->
  let t' := handleGenerate sv t in
  match generateSpeech sv (tts_text t) (selectedVoice t) with
  | (_, Throw _) => open_contexts t' = open_contexts t
  | (_, Ok audio) =>
      open_contexts t' = open_contexts t ++ [tts_next t] /\
      match decode_speech sv audio with
      | Some _ =>
          isPlaying t' = true /\
          open_contexts (speech_ended (tts_next t) t') = open_contexts t /\
          isPlaying (speech_ended (tts_next t) t') = false
      | None => isPlaying t' = false
      end
  end /\
  Forall (fun c => (c < tts_next t')%nat) (open_contexts t').
Proof.
  intros Hf Ht t'. subst t'. unfold handleGenerate.
  rewrite bool_decide_eq_false_2 by exact Ht.
  destruct (generateSpeech sv (tts_text t) (selectedVoice t))
    as [lines [audio|e]].
  - destruct (decode_speech sv audio) as [buffer|]; simpl.
    + split.
      * split; [reflexivity|]. split; [reflexivity|]. split; [|reflexivity].
        rewrite filter_app, filter_fresh_context by exact Hf.
        rewrite filter_cons_False by (intros H; apply H; reflexivity).
        rewrite filter_nil. apply app_nil_r.
      * apply Forall_app. split; [|repeat constructor].
        eapply Forall_impl; [exact Hf|]. simpl. intros. lia.
    + split; [split; reflexivity|].
      apply Forall_app. split; [|repeat constructor].
      eapply Forall_impl; [exact Hf|]. simpl. intros. lia.
  - simpl. split; [reflexivity | exact Hf].
Qed.

(** ** Instances *)

Lemma live_session_reachable : reachable sample_runtime live_session.
Proof.
  unfold live_session.
  apply (reach_event sample_runtime _ (EvMessage (chunk_message "A") 0)).
  apply (reach_event sample_runtime _ EvOpen).
  apply reach_start. apply reach_initial.
Qed.

Lemma live_session_inv : session_inv live_session.
Proof.
  unfold live_session.
  apply (session_inv_handle sample_runtime (EvMessage (chunk_message "A") 0)).
  apply (session_inv_handle sample_runtime EvOpen).
  apply session_inv_start. repeat split; constructor.
Qed.

Lemma sample_random_in_range : random_in_range sample_runtime.
Proof. intros n. simpl. split; lra. Qed.

Lemma reachable_states_are_consistent_witness :
  reachable sample_runtime live_session /\ session_inv live_session.
Proof.
  split; [exact live_session_reachable|].
  apply (reachable_states_are_consistent sample_runtime live_session).
  exact live_session_reachable.
Defined.

Lemma reminder_set_unless_callback_lacks_args_witness :
  fc_name reminder_call = "set_reminder" /\
  fc_name bare_reminder_call = "set_reminder" /\
  reminders (env (run (dispatch sample_runtime reminder_call) initial_state)) =
    [] /\
  reminders (env (run (dispatch answering_runtime reminder_call)
                      initial_state)) = [(JStr "tea", JNum 60)] /\
  sent (env (run (dispatch answering_runtime bare_reminder_call)
                 initial_state)) =
    [response bare_reminder_call (error_obj "Tool execution failed")].
Proof.
  split; [reflexivity|]. split; [reflexivity|].
  destruct (reminder_set_unless_callback_lacks_args sample_runtime
              reminder_call initial_state eq_refl) as (Hoff & _ & _).
  destruct (reminder_set_unless_callback_lacks_args answering_runtime
              reminder_call initial_state eq_refl) as (_ & Hon & _).
  destruct (reminder_set_unless_callback_lacks_args answering_runtime
              bare_reminder_call initial_state eq_refl) as (_ & _ & Hbare).
  split; [|split].
  - rewrite (Hoff eq_refl). reflexivity.
  - destruct (Hon eq_refl _ eq_refl) as [Hr _]. exact Hr.
  - destruct (Hbare eq_refl eq_refl) as (_ & Hs & _). exact Hs.
Defined.

Lemma declared_tool_without_args_fails_witness :
  fc_args bad_tab_call = None /\
  (fc_name bad_tab_call ∈ needs_args) /\
  sent (env (run (dispatch sample_runtime bad_tab_call) initial_state)) =
    [response bad_tab_call (error_obj "Tool execution failed")].
Proof.
  assert (Hn : fc_name bad_tab_call ∈ needs_args).
  { unfold needs_args. simpl. right. left. }
  split; [reflexivity|]. split; [exact Hn|].
  destruct (declared_tool_without_args_fails sample_runtime bad_tab_call
              initial_state eq_refl Hn) as (Hs & _).
  exact Hs.
Defined.

Lemma supported_widget_without_data_fails_witness :
  fc_name bare_weather_call = "render_widget" /\
  ((field bare_weather_args "widget_type") ∈ widget_types) /\
  ((field bare_weather_args "data") ∈ [JUndefined; JNull]) /\
  activeWidget (ui (run (dispatch sample_runtime bare_weather_call)
                        initial_state)) = None.
Proof.
  assert (Ht : (field bare_weather_args "widget_type") ∈ widget_types).
  { replace (field bare_weather_args "widget_type")
      with (JStr "weather_card") by reflexivity. left. }
  assert (Hd : (field bare_weather_args "data") ∈ [JUndefined; JNull]).
  { replace (field bare_weather_args "data") with JUndefined by reflexivity.
    left. }
  split; [reflexivity|]. split; [exact Ht|]. split; [exact Hd|].
  destruct (supported_widget_without_data_fails sample_runtime
              bare_weather_call bare_weather_args initial_state
              eq_refl eq_refl Ht Hd) as (_ & Hw & _).
  exact Hw.
Defined.

Lemma zero_temperature_shown_as_default_witness :
  field freezing_data "temp" = JNum 0 /\
  (0 == 0)%Q /\
  activeWidget (ui (run (dispatch sample_runtime freezing_call)
                        initial_state)) =
    Some (weather (JStr "Oslo") (JNum 22) (JStr "Snow")).
Proof.
  split; [reflexivity|]. split; [reflexivity|].
  destruct (zero_temperature_shown_as_default sample_runtime freezing_call
              freezing_args freezing_data 0%Q initial_state
              eq_refl eq_refl eq_refl eq_refl eq_refl (Qeq_refl 0))
    as (Hw & _).
  exact Hw.
Defined.

Lemma stock_history_follows_price_witness :
  fc_name text_price_call = "render_widget" /\
  fc_args text_price_call = Some text_price_args /\
  field text_price_args "widget_type" = JStr "stock_chart" /\
  field text_price_args "data" = JObj text_price_data /\
  exists history,
    activeWidget (ui (run (dispatch sample_runtime text_price_call)
                          initial_state)) =
      Some (stock (JStr "ACME") (JStr "250") history) /\
    length history = 10%nat /\
    Forall (fun v => exists tail, v = JStr ("250" +:+ tail)) history.
Proof.
  split; [reflexivity|]. split; [reflexivity|]. split; [reflexivity|].
  split; [reflexivity|].
  destruct (stock_history_follows_price sample_runtime text_price_call
              text_price_args text_price_data initial_state
              eq_refl eq_refl eq_refl eq_refl)
    as (history & Hw & Hl & _ & _ & Hs).
  exists history. split; [exact Hw|]. split; [exact Hl|].
  apply (Hs "250"); [reflexivity | discriminate].
Defined.

Lemma weather_report_is_sunny_or_rainy_witness :
  (0 <= random sample_runtime (random_calls (env initial_state)))%Q /\
  (random sample_runtime (random_calls (env initial_state)) < 1)%Q /\
  fc_name weather_call = "get_weather" /\
  random_calls (env (run (dispatch sample_runtime weather_call)
                         initial_state)) = 1%nat.
Proof.
  destruct (sample_random_in_range 0%nat) as [H0 H1].
  split; [exact H0|]. split; [exact H1|]. split; [reflexivity|].
  destruct (weather_report_is_sunny_or_rainy sample_runtime weather_call
              place_args initial_state H0 H1 eq_refl eq_refl)
    as (w & _ & _ & _ & Hr).
  exact Hr.
Defined.

Lemma change_tab_always_reports_switch_witness :
  fc_name tab_call = "change_tab" /\
  field tab_args "tab_name" = JStr "settings" /\
  tab_changes (env (run (dispatch sample_runtime tab_call) initial_state)) =
    [] /\
  sent (env (run (dispatch sample_runtime tab_call) initial_state)) =
    [response tab_call (result_obj "Switched view to settings")].
Proof.
  split; [reflexivity|]. split; [reflexivity|].
  destruct (change_tab_always_reports_switch sample_runtime tab_call tab_args
              "settings" initial_state eq_refl eq_refl eq_refl)
    as (Hs & _ & Hnone).
  split; [exact (Hnone eq_refl eq_refl eq_refl) | exact Hs].
Defined.

Lemma failed_search_leaves_task_searching_witness :
  fc_name search_call = "search_web" /\
  generateContent sample_runtime (field query_args "query") = None /\
  task_status (task (ui (run (dispatch sample_runtime search_call)
                             initial_state))) = searching /\
  timeouts (env (run (dispatch sample_runtime search_call) initial_state)) =
    [].
Proof.
  split; [reflexivity|]. split; [reflexivity|].
  destruct (failed_search_leaves_task_searching sample_runtime search_call
              query_args initial_state eq_refl eq_refl eq_refl)
    as (Hs & _ & Ht & _).
  split; [exact Hs | exact Ht].
Defined.

Lemma search_task_runs_to_idle_witness :
  fc_name search_call = "search_web" /\
  generateContent answering_runtime (field query_args "query") =
    Some ("It is sunny.", []) /\
  task (ui (run (run_timer ResetTask)
              (run (run_timer MarkCompleted)
                 (run (dispatch answering_runtime search_call)
                      initial_state)))) = idle_task.
Proof.
  split; [reflexivity|]. split; [reflexivity|].
  destruct (search_task_runs_to_idle answering_runtime search_call query_args
              "It is sunny." [] initial_state eq_refl eq_refl eq_refl)
    as (_ & _ & _ & _ & _ & Hidle).
  exact Hidle.
Defined.

Lemma order_runs_through_payment_witness :
  fc_name order_call = "order_food" /\
  fc_args order_call = Some order_args /\
  task_status (task (ui (run handlePayment
                           (run (run_timer MarkPayment)
                              (run (dispatch sample_runtime order_call)
                                   initial_state))))) = completed.
Proof.
  split; [reflexivity|]. split; [reflexivity|].
  destruct (order_runs_through_payment sample_runtime order_call order_args
              initial_state eq_refl eq_refl)
    as (_ & _ & _ & _ & _ & _ & _ & Hc & _).
  exact Hc.
Defined.

Lemma stale_reset_clears_newer_task_witness :
  fc_name open_call = "open_app" /\
  fc_name order_call = "order_food" /\
  is_Some (fc_args order_call) /\
  task (ui (run (run_timer ResetTask)
              (run (dispatch sample_runtime order_call)
                 (run (dispatch sample_runtime open_call) initial_state)))) =
    idle_task.
Proof.
  assert (Ha : is_Some (fc_args order_call)) by (simpl; eauto).
  split; [reflexivity|]. split; [reflexivity|]. split; [exact Ha|].
  destruct (stale_reset_clears_newer_task sample_runtime open_call order_call
              app_args initial_state eq_refl eq_refl eq_refl Ha)
    as (_ & _ & Hidle & _).
  exact Hidle.
Defined.

Lemma interrupt_discards_rest_of_message_witness :
  interrupted loaded_interrupt = true /\
  sent (env (run (onmessage sample_runtime loaded_interrupt 6000)
                 live_session)) = sent (env live_session) /\
  starts (audio_log (env (run (onmessage sample_runtime loaded_interrupt 6000)
                              live_session))) =
    starts (audio_log (env live_session)).
Proof.
  split; [reflexivity|].
  destruct (interrupt_discards_rest_of_message sample_runtime loaded_interrupt
              6000 live_session eq_refl) as (_ & Hs & Ha & _).
  split; [exact Hs | exact Ha].
Defined.

Lemma scheduled_buffers_never_overlap_witness :
  live_started live_session /\
  Forall (fun ev => is_interrupt ev = false) busy_events /\
  exists added,
    audio_log (env (handle_all sample_runtime busy_events live_session)) =
      audio_log (env live_session) ++ added /\
    disjoint_from (nextStartTimeRef (refs live_session)) added.
Proof.
  assert (Hl : live_started live_session) by exact (proj1 live_session_inv).
  assert (Hq : Forall (fun ev => is_interrupt ev = false) busy_events).
  { repeat constructor. }
  split; [exact Hl|]. split; [exact Hq|].
  destruct (scheduled_buffers_never_overlap sample_runtime busy_events
              live_session Hl Hq) as (added & Hlog & Hd & _).
  exists added. split; [exact Hlog | exact Hd].
Defined.

Lemma ended_source_leaves_alone_witness :
  session_inv live_session /\
  (playing_source ∈ sourcesRef (refs live_session)) /\
  length (sourcesRef (refs (run (on_ended (src_id playing_source))
                                live_session))) = 0%nat.
Proof.
  assert (Hin : playing_source ∈ sourcesRef (refs live_session)).
  { replace (sourcesRef (refs live_session)) with [playing_source]
      by reflexivity. left. }
  split; [exact live_session_inv|]. split; [exact Hin|].
  destruct (ended_source_leaves_alone live_session playing_source
              live_session_inv Hin) as (Hlen & _).
  exact Hlen.
Defined.

Lemma session_gives_back_what_it_took_witness :
  API_KEY sample_runtime = true /\
  session_inv initial_state /\
  torn_down (refs initial_state) /\
  forall x,
    x ∈ acquired (env (run stopSession
                         (run onopen
                            (run (startSession sample_runtime true 0)
                                 initial_state)))) <->
    x ∈ acquired (env initial_state).
Proof.
  assert (Hi : session_inv initial_state) by (repeat split; constructor).
  assert (Ht : torn_down (refs initial_state)) by (split; reflexivity).
  split; [reflexivity|]. split; [exact Hi|]. split; [exact Ht|].
  destruct (session_gives_back_what_it_took sample_runtime 0 initial_state
              eq_refl Hi Ht) as (_ & Hsame & _).
  exact Hsame.
Defined.

Lemma camera_on_then_off_gives_back_witness :
  session_inv live_session /\
  isCameraActive (ui live_session) = false /\
  isActive (ui live_session) = true /\
  isCameraActive (ui (run (toggleCamera true)
                        (run (toggleCamera true) live_session))) = false.
Proof.
  split; [exact live_session_inv|]. split; [reflexivity|].
  split; [reflexivity|].
  destruct (camera_on_then_off_gives_back true live_session live_session_inv
              eq_refl eq_refl eq_refl eq_refl) as (_ & _ & _ & Hoff & _).
  exact Hoff.
Defined.

Lemma speech_context_is_closed_only_after_playback_witness :
  Forall (fun c => (c < tts_next sample_tts)%nat) (open_contexts sample_tts) /\
  trim sample_services (tts_text sample_tts) <> "" /\
  Forall (fun c => (c < tts_next (handleGenerate sample_services sample_tts))%nat)
         (open_contexts (handleGenerate sample_services sample_tts)).
Proof.
  assert (Hf : Forall (fun c => (c < tts_next sample_tts)%nat)
                      (open_contexts sample_tts)) by constructor.
  assert (Ht : trim sample_services (tts_text sample_tts) <> "")
    by discriminate.
  split; [exact Hf|]. split; [exact Ht|].
  destruct (speech_context_is_closed_only_after_playback sample_services
              sample_tts Hf Ht) as (_ & Hfresh).
  exact Hfresh.
Defined.

Lemma camera_toggle_leaves_audio_alone_witness :
  isCameraActive (ui initial_state) = false /\
  isActive (ui initial_state) = false /\
  run (toggleCamera true) initial_state = initial_state.
Proof.
  split; [reflexivity|]. split; [reflexivity|].
  destruct (camera_toggle_leaves_audio_alone true initial_state)
    as (_ & _ & Hsame & _).
  exact (Hsame eq_refl eq_refl).
Defined.

Lemma no_frame_without_session_witness :
  live_started live_session /\
  outcome (captureAndSendFrame true true true (Some "jpeg"))
          (run stopSession live_session) = Ok None.
Proof.
  assert (Hl : live_started live_session) by exact (proj1 live_session_inv).
  split; [exact Hl|].
  destruct (no_frame_without_session true true true (Some "jpeg")
              live_session) as (_ & _ & Hstopped & _).
  exact (Hstopped Hl).
Defined.

Lemma send_appends_question_and_one_answer_witness :
  sendable sample_services sample_chat /\
  chat_isLoading (handleSend sample_services 0 1 sample_chat) = false.
Proof.
  assert (Hs : sendable sample_services sample_chat)
    by (split; [reflexivity | left; discriminate]).
  split; [exact Hs|].
  destruct (send_appends_question_and_one_answer sample_services 0 1
              sample_chat) as (_ & Hsent).
  destruct (Hsent Hs) as (? & ? & _ & _ & _ & _ & _ & _ & _ & Hload & _).
  exact Hload.
Defined.

Lemma speech_request_always_settles_witness :
  trim sample_services (tts_text sample_tts) <> "" /\
  tts_isLoading (handleGenerate sample_services sample_tts) = false.
Proof.
  assert (Ht : trim sample_services (tts_text sample_tts) <> "")
    by discriminate.
  split; [exact Ht|].
  destruct (speech_request_always_settles sample_services sample_tts)
    as (_ & Hsettled).
  exact (proj1 (Hsettled Ht)).
Defined.
